(** * NHL statistics engine ([final.py]): shallow embedding and verification

    The Python module works on pandas data frames ([DataHandler]'s skater and
    goalie methods), on strings ([extract_team_code]) and on plain objects
    written to an SQLite table ([Player], [Goalie], [create_database]).

    - numpy scalars: [int64] as [Z] with two's-complement wrap-around,
      [float64] as [spec_float] at precision 53 / emax 1024 (IEEE binary64);
    - a [DataFrame] is an index plus an ordered association list of typed
      columns; the methods that assign a column ([df[k] = ...]) are written
      in a state-and-exception monad over the caller's frame, so that the
      in-place update is visible;
    - Python objects are attribute dictionaries ([gmap string pyval]);
    - the database file is a finite map from table names to tables. *)

From Stdlib Require Import ZArith List String Ascii Bool Lia SpecFloat.
From stdpp Require Import base option list sorting strings gmap.

Open Scope Z_scope.

(** ** Exceptions and results *)

Inductive exn : Type :=
| KeyError
| TypeError
| AttributeError (attr : string)
| OverflowError
| OperationalError.

Inductive result (A : Type) : Type :=
| Ok (a : A)
| Raise (e : exn).
Arguments Ok {A} a.
Arguments Raise {A} e.

Definition rbind {A B} (r : result A) (k : A -> result B) : result B :=
  match r with
  | Ok a => k a
  | Raise e => Raise e
  end.

Notation "x <-? r ; k" := (rbind r (fun x => k))
  (at level 100, r at next level, right associativity).

(** ** numpy scalars *)

Module Numpy.

Definition int64_min : Z := - 2 ^ 63.
Definition int64_max : Z := 2 ^ 63 - 1.

Definition in_int64 (z : Z) : Prop := int64_min <= z <= int64_max.

(** Two's-complement reduction into the [int64] range. *)
Definition wrap64 (z : Z) : Z := (z - int64_min) mod 2 ^ 64 + int64_min.

(** [int64 + int64]: numpy adds modulo 2^64 and raises nothing. *)
Definition int64_add (a b : Z) : Z := wrap64 (a + b).

Definition float64 : Type := spec_float.

Definition nan : float64 := S754_nan.
Definition pinf : float64 := S754_infinity false.
Definition ninf : float64 := S754_infinity true.

(** Conversion [int64 -> float64], round to nearest even. *)
Definition float64_of_int (z : Z) : float64 := binary_normalize 53 1024 z 0 false.

Definition float64_add : float64 -> float64 -> float64 := SFadd 53 1024.

(** IEEE division: a zero divisor gives an infinity or NaN, never an
    exception. *)
Definition float64_div : float64 -> float64 -> float64 := SFdiv 53 1024.

(** [int64 / int64] is numpy's [true_divide]: both operands are converted
    to [float64] first. *)
Definition int64_truediv (a b : Z) : float64 :=
  float64_div (float64_of_int a) (float64_of_int b).

Definition isnan (x : float64) : bool :=
  match x with
  | S754_nan => true
  | _ => false
  end.

Definition isfinite (x : float64) : bool :=
  match x with
  | S754_zero _ | S754_finite _ _ _ => true
  | _ => false
  end.

Definition float64_ltb : float64 -> float64 -> bool := SFltb.
Definition float64_eqb : float64 -> float64 -> bool := SFeqb.

End Numpy.
Import Numpy.

(** ** pandas series and frames *)

Module Pandas.

(** A column with its dtype: [int64], [float64], or [object] holding
    Python strings. *)
Inductive column : Type :=
| IntCol (v : list Z)
| FloatCol (v : list float64)
| StrCol (v : list string).

Definition col_len (c : column) : nat :=
  match c with
  | IntCol v => length v
  | FloatCol v => length v
  | StrCol v => length v
  end.

(** [a + b] on two series over the same index. On [object] columns numpy
    applies Python's [+] element by element, so a string meeting a number
    raises [TypeError] as soon as there is an element. *)
Definition series_add (a b : column) : result column :=
  match a, b with
  | IntCol x, IntCol y => Ok (IntCol (zip_with int64_add x y))
  | IntCol x, FloatCol y => Ok (FloatCol (zip_with float64_add (float64_of_int <$> x) y))
  | FloatCol x, IntCol y => Ok (FloatCol (zip_with float64_add x (float64_of_int <$> y)))
  | FloatCol x, FloatCol y => Ok (FloatCol (zip_with float64_add x y))
  | StrCol x, StrCol y => Ok (StrCol (zip_with String.append x y))
  | StrCol _, _ | _, StrCol _ =>
      if (col_len a =? 0)%nat || (col_len b =? 0)%nat then Ok (StrCol []) else Raise TypeError
  end.

(** [a / b] on two series over the same index (true division). *)
Definition series_truediv (a b : column) : result column :=
  match a, b with
  | IntCol x, IntCol y => Ok (FloatCol (zip_with int64_truediv x y))
  | IntCol x, FloatCol y => Ok (FloatCol (zip_with float64_div (float64_of_int <$> x) y))
  | FloatCol x, IntCol y => Ok (FloatCol (zip_with float64_div x (float64_of_int <$> y)))
  | FloatCol x, FloatCol y => Ok (FloatCol (zip_with float64_div x y))
  | StrCol _, _ | _, StrCol _ =>
      if (col_len a =? 0)%nat || (col_len b =? 0)%nat then Ok (StrCol []) else Raise TypeError
  end.

(** [series == s] for a Python string [s]: a boolean mask; a number is
    never equal to a string. *)
Definition series_eq_str (a : column) (s : string) : list bool :=
  match a with
  | IntCol v => (fun _ => false) <$> v
  | FloatCol v => (fun _ => false) <$> v
  | StrCol v => (fun x => String.eqb x s) <$> v
  end.

(** Positional selections. *)
Definition take_by {A} (indexer : list nat) (l : list A) : list A :=
  omap (fun i => l !! i) indexer.

Fixpoint mask_by {A} (mask : list bool) (l : list A) : list A :=
  match mask, l with
  | b :: mask', x :: l' => if b then x :: mask_by mask' l' else mask_by mask' l'
  | _, _ => []
  end.

Definition col_map (f : forall A, list A -> list A) (c : column) : column :=
  match c with
  | IntCol v => IntCol (f _ v)
  | FloatCol v => FloatCol (f _ v)
  | StrCol v => StrCol (f _ v)
  end.

Record DataFrame : Type := mkDataFrame {
  index : list Z;
  columns : list (string * column)
}.

(** [len(df)] *)
Definition len (df : DataFrame) : nat := length (index df).

Definition labels (df : DataFrame) : list string := fst <$> columns df.

(** Column labels are unique and every column is as long as the index:
    what [read_csv] and every operation below produce. *)
Definition wf (df : DataFrame) : Prop :=
  NoDup (labels df) /\ Forall (fun kc => col_len kc.2 = len df) (columns df).

Fixpoint lookup_col (k : string) (cols : list (string * column)) : option column :=
  match cols with
  | [] => None
  | (k', c) :: cols' => if String.eqb k' k then Some c else lookup_col k cols'
  end.

(** [df[k]] *)
Definition getitem (df : DataFrame) (k : string) : result column :=
  match lookup_col k (columns df) with
  | Some c => Ok c
  | None => Raise KeyError
  end.

Fixpoint set_col (k : string) (c : column) (cols : list (string * column))
  : list (string * column) :=
  match cols with
  | [] => [(k, c)]
  | (k', c') :: cols' =>
      if String.eqb k' k then (k, c) :: cols' else (k', c') :: set_col k c cols'
  end.

(** The frame after [df[k] = c], for a series [c] over [df]'s own index:
    an existing column is replaced where it stands, a new one is appended
    last. *)
Definition setitem (df : DataFrame) (k : string) (c : column) : DataFrame :=
  {| index := index df; columns := set_col k c (columns df) |}.

Fixpoint select_cols (ks : list string) (cols : list (string * column))
  : result (list (string * column)) :=
  match ks with
  | [] => Ok []
  | k :: ks' =>
      match lookup_col k cols with
      | Some c => rest <-? select_cols ks' cols; Ok ((k, c) :: rest)
      | None => Raise KeyError
      end
  end.

(** [df[[k1, ..., kn]]]: a new frame with the listed columns, in the
    listed order. *)
Definition getitem_list (df : DataFrame) (ks : list string) : result DataFrame :=
  cols <-? select_cols ks (columns df);
  Ok {| index := index df; columns := cols |}.

Definition map_rows (f : forall A, list A -> list A) (df : DataFrame) : DataFrame :=
  {| index := f _ (index df);
     columns := (fun kc => (kc.1, col_map f kc.2)) <$> columns df |}.

(** [df.take(indexer)] *)
Definition take_rows (indexer : list nat) (df : DataFrame) : DataFrame :=
  map_rows (fun A => take_by indexer) df.

(** [df[mask]] for a boolean series over [df]'s own index. *)
Definition getitem_mask (df : DataFrame) (mask : list bool) : DataFrame :=
  map_rows (fun A => mask_by mask) df.

(** Python's [slice(None, n).indices(len)]: the stop position of [[:n]]. *)
Definition slice_stop (n : Z) (len : nat) : nat :=
  if n <? 0 then Z.to_nat (Z.max 0 (Z.of_nat len + n))
  else Z.to_nat (Z.min n (Z.of_nat len)).

(** [df.head(n)] is [df.iloc[:n]]. *)
Definition head (n : Z) (df : DataFrame) : DataFrame :=
  map_rows (fun A => take (slice_stop n (len df))) df.

(** *** Sorting *)

Section Argsort.
Context {K : Type}.
Variable ltb : K -> K -> bool.

(** The insertion step: [x] goes in front of the first element that is
    not strictly below it. *)
Fixpoint insert_key (x : nat * K) (l : list (nat * K)) : list (nat * K) :=
  match l with
  | [] => [x]
  | y :: l' => if ltb y.2 x.2 then y :: insert_key x l' else x :: l
  end.

(** [values.argsort()] on positions paired with their keys, ascending.
    numpy's default kind, [quicksort], is not stable: the order in which
    it leaves equal keys is not specified and differs between builds of
    numpy. The sort below is one of the sorts it may be; the statements
    of this file use of it only what every argsort gives, a permutation
    of the input in ascending key order, and none depends on where equal
    keys end up. *)
Definition argsort (items : list (nat * K)) : list (nat * K) :=
  foldr insert_key [] items.

Variable isna : K -> bool.

(** [nargsort(items, ascending=False, na_position='last')]: missing
    values are set aside, the others are reversed, sorted ascending and
    reversed again, and the missing ones are appended. *)
Definition nargsort_desc (items : list K) : list nat :=
  let idx := zip (seq 0 (length items)) items in
  let non_nans := List.filter (fun p => negb (isna p.2)) idx in
  let nan_idx := List.filter (fun p => isna p.2) idx in
  let indexer := reverse (argsort (reverse non_nans)) in
  (fst <$> indexer) ++ (fst <$> nan_idx).
End Argsort.

Definition col_nargsort_desc (c : column) : list nat :=
  match c with
  | IntCol v => nargsort_desc Z.ltb (fun _ => false) v
  | FloatCol v => nargsort_desc float64_ltb isnan v
  | StrCol v => nargsort_desc String.ltb (fun _ => false) v
  end.

(** [df.sort_values(by=k, ascending=False)] *)
Definition sort_values_desc (df : DataFrame) (k : string) : result DataFrame :=
  c <-? getitem df k;
  Ok (take_rows (col_nargsort_desc c) df).

End Pandas.
Import Pandas.

(** ** [DataHandler]: skaters and goalies (module 2) *)

Module DataHandler.

(** The body of a method that receives the caller's frame: it returns the
    frame as the call leaves it, and the value returned or the exception
    raised. *)
Definition method (A : Type) : Type := DataFrame -> DataFrame * result A.

Definition ret {A} (a : A) : method A := fun df => (df, Ok a).

Definition bind {A B} (m : method A) (k : A -> method B) : method B :=
  fun df =>
    match m df with
    | (df', Ok a) => k a df'
    | (df', Raise e) => (df', Raise e)
    end.

(** Reading the frame. *)
Definition read {A} (f : DataFrame -> result A) : method A := fun df => (df, f df).

(** [df[k] = c] *)
Definition assign (k : string) (c : column) : method unit :=
  fun df => (setitem df k c, Ok tt).

Definition final {A} (r : DataFrame * result A) : DataFrame := r.1.
Definition outcome {A} (r : DataFrame * result A) : result A := r.2.

Declare Scope method_scope.
Delimit Scope method_scope with method.
Notation "x <- m ;; k" := (bind m (fun x => k))
  (at level 100, m at next level, right associativity) : method_scope.
Open Scope method_scope.

(** [return skaters[skaters['Pos'] == position]] *)
Definition filter_skaters_by_position (position : string) : method DataFrame :=
  pos <- read (fun skaters => getitem skaters "Pos");;
  read (fun skaters => Ok (getitem_mask skaters (series_eq_str pos position))).

(** [skaters['Points'] = skaters['G'] + skaters['A']]
    [return skaters[['Player Name', 'Points']]] *)
Definition calculate_points : method DataFrame :=
  g <- read (fun skaters => getitem skaters "G");;
  a <- read (fun skaters => getitem skaters "A");;
  points <- read (fun _ => series_add g a);;
  _ <- assign "Points" points;;
  read (fun skaters => getitem_list skaters ["Player Name"; "Points"]).

(** [sorted_skaters = skaters.sort_values(by='Points', ascending=False)]
    [return sorted_skaters.head(num_players)] *)
Definition top_players_by_points (num_players : Z) : method DataFrame :=
  sorted_skaters <- read (fun skaters => sort_values_desc skaters "Points");;
  ret (head num_players sorted_skaters).

(** [goalies['SavePercentage'] = goalies['SV'] / goalies['SA']]
    [return goalies[['Player Name', 'SavePercentage']]] *)
Definition calculate_save_percentage : method DataFrame :=
  sv <- read (fun goalies => getitem goalies "SV");;
  sa <- read (fun goalies => getitem goalies "SA");;
  pct <- read (fun _ => series_truediv sv sa);;
  _ <- assign "SavePercentage" pct;;
  read (fun goalies => getitem_list goalies ["Player Name"; "SavePercentage"]).

(** [sorted_goalies = goalies.sort_values(by='SavePercentage', ascending=False)]
    [return sorted_goalies.head(num_goalies)] *)
Definition top_goalies_by_save_percentage (num_goalies : Z) : method DataFrame :=
  sorted_goalies <- read (fun goalies => sort_values_desc goalies "SavePercentage");;
  ret (head num_goalies sorted_goalies).

Close Scope method_scope.

End DataHandler.
Import DataHandler.

(** ** [extract_team_code] (module 8) *)

Module Re.

(** The class [[A-Z]]. Strings are read as their UTF-8 bytes: the three
    characters of the pattern are ASCII, and no byte of a longer sequence
    is below 128. *)
Definition is_upper (c : ascii) : bool :=
  let n := nat_of_ascii c in (65 <=? n)%nat && (n <=? 90)%nat.

(** Greedy [[A-Z]*]: the longest run of capitals and what follows it. *)
Fixpoint span_upper (s : string) : string * string :=
  match s with
  | String c s' =>
      if is_upper c
      then let (run, rest) := span_upper s' in (String c run, rest)
      else (EmptyString, s)
  | EmptyString => (EmptyString, EmptyString)
  end.

(** [\(([A-Z]+)\)] tried at the start of [s]; the result is group 1. After
    the greedy run nothing is gained by giving characters back, since the
    closing parenthesis is no capital. *)
Definition match_at (s : string) : option string :=
  match s with
  | String "("%char s' =>
      match span_upper s' with
      | (String c run, String ")"%char _) => Some (String c run)
      | _ => None
      end
  | _ => None
  end.

(** [re.search]: the start positions are tried from left to right. *)
Fixpoint search (s : string) : option string :=
  match match_at s with
  | Some g => Some g
  | None =>
      match s with
      | String _ s' => search s'
      | EmptyString => None
      end
  end.

End Re.

(** [match = re.search(r'\(([A-Z]+)\)', player_info)];
    [match.group(1)] when there is a match, [None] otherwise. *)
Definition extract_team_code (player_info : string) : option string :=
  Re.search player_info.

(** ** [Player] and [Goalie] (modules 1 and 7) *)

Inductive pyval : Type :=
| PyInt (z : Z)
| PyStr (s : string).

(** An instance is its attribute dictionary. *)
Abbreviation object := (gmap string pyval).

Definition getattr (o : object) (a : string) : result pyval :=
  match o !! a with
  | Some v => Ok v
  | None => Raise (AttributeError a)
  end.

Definition setattr (o : object) (a : string) (v : pyval) : object := <[a := v]> o.

(** [Player.__init__] *)
Definition Player (name team position goals penalty_minutes : pyval) : object :=
  let self : object := ∅ in
  let self := setattr self "name" name in
  let self := setattr self "team" team in
  let self := setattr self "position" position in
  let self := setattr self "goals" goals in
  setattr self "penalty_minutes" penalty_minutes.

(** [Goalie.__init__]:
    [super().__init__(name, country, position="Goalie", goals=0, penalty_minutes=0)] *)
Definition Goalie (name country saves goals_allowed : pyval) : object :=
  let self := Player name country (PyStr "Goalie") (PyInt 0) (PyInt 0) in
  let self := setattr self "saves" saves in
  setattr self "goals_allowed" goals_allowed.

(** ** [create_database] (module 11) *)

Module Sqlite.

Inductive sqlval : Type :=
| SqlInteger (z : Z)
| SqlText (s : string).

(** A table: the declared columns (name and type) and the rows, each row
    recorded as the values bound by the statement that inserted it.
    SQLite keeps a bound value under the affinity of the column's
    declared type: a [str] in a [TEXT] column and an [int] in an
    [INTEGER] column are stored as bound, an [int] bound to a [TEXT]
    column is stored as its decimal text, and a text that reads as a
    number bound to an [INTEGER] column as that number. Equal recorded
    rows of tables with equal declarations are equal stored rows. *)
Record table : Type := mkTable {
  schema : list (string * string);
  rows : list (list sqlval)
}.

Abbreviation database := (gmap string table).

(** Binding a Python value to a [?]: an [int] must fit in 64 bits. *)
Definition bind_param (v : pyval) : result sqlval :=
  match v with
  | PyInt z =>
      if (int64_min <=? z) && (z <=? int64_max) then Ok (SqlInteger z)
      else Raise OverflowError
  | PyStr s => Ok (SqlText s)
  end.

Fixpoint bind_params (vs : list pyval) : result (list sqlval) :=
  match vs with
  | [] => Ok []
  | v :: vs' => x <-? bind_param v; xs <-? bind_params vs'; Ok (x :: xs)
  end.

(** [CREATE TABLE IF NOT EXISTS name (...)] *)
Definition create_table_if_not_exists
    (name : string) (cols : list (string * string)) (db : database) : database :=
  match db !! name with
  | Some _ => db
  | None => <[name := mkTable cols []]> db
  end.

(** [INSERT INTO name VALUES (?, ..., ?)] with its parameters: the
    statement is compiled against the table first, then the values are
    bound and the row is added. *)
Definition insert_values (name : string) (params : list pyval) (db : database)
  : result database :=
  match db !! name with
  | None => Raise OperationalError
  | Some t =>
      if (length (schema t) =? length params)%nat then
        row <-? bind_params params;
        Ok (<[name := mkTable (schema t) (rows t ++ [row])]> db)
      else Raise OperationalError
  end.

End Sqlite.
Import Sqlite.

Definition players_schema : list (string * string) :=
  [("name", "TEXT"); ("country", "TEXT"); ("position", "TEXT");
   ("goals", "INTEGER"); ("penalty_minutes", "INTEGER")]%string.

(** The parameter tuple of the [INSERT]:
    [(player.name, player.country, player.position, player.goals,
      player.penalty_minutes)]. *)
Definition insert_params (player : object) : result (list pyval) :=
  name <-? getattr player "name";
  country <-? getattr player "country";
  position <-? getattr player "position";
  goals <-? getattr player "goals";
  penalty_minutes <-? getattr player "penalty_minutes";
  Ok [name; country; position; goals; penalty_minutes].

(** The [for player in players] loop, inside the connection's open
    transaction. *)
Fixpoint insert_players (players : list object) (db : database) : result database :=
  match players with
  | [] => Ok db
  | player :: players' =>
      params <-? insert_params player;
      db' <-? insert_values "players" params db;
      insert_players players' db'
  end.

(** [create_database(players)] on the database file: the file as the call
    leaves it, and the outcome. The [CREATE TABLE] runs outside any
    transaction and is durable at once; the inserted rows become durable at
    [conn.commit()], which an exception in the loop never reaches, so they
    are lost with the connection. *)
Definition create_database (players : list object) (file : database)
  : database * result unit :=
  let created := create_table_if_not_exists "players" players_schema file in
  match insert_players players created with
  | Ok committed => (committed, Ok tt)
  | Raise e => (created, Raise e)
  end.

(** ** Vocabulary of the statements *)

(** What [extract_team_code] is meant to find, said without the matcher:
    [s] begins with an opening parenthesis, the non-empty run of capitals
    [code], and a closing parenthesis. *)
Fixpoint all_upper (s : string) : bool :=
  match s with
  | EmptyString => true
  | String c s' => Re.is_upper c && all_upper s'
  end.

Definition tagged_at (s code : string) : Prop :=
  code <> EmptyString /\ all_upper code = true /\
  exists post : string, s = String "("%char (code +:+ String ")"%char post).

(** The same, [n] characters into [s]. *)
Definition tagged_from (n : nat) (s code : string) : Prop :=
  exists pre rest : string,
    s = pre +:+ rest /\ String.length pre = n /\ tagged_at rest code.

(** The row one player contributes: the parameter tuple, bound. *)
Definition player_row (player : object) : result (list sqlval) :=
  params <-? insert_params player;
  bind_params params.

(** The [players] table of a database file, as found or as created. *)
Definition players_table (file : database) : table :=
  default (mkTable players_schema []) (file !! "players"%string).

(** ** Sample frames and objects *)

Module Samples.
Open Scope string_scope.

(** Two forwards with equal points, [B] listed first. *)
Definition skaters_tied : DataFrame :=
  {| index := [0; 1];
     columns := [("Player Name", StrCol ["B"; "A"]);
                 ("Team", StrCol ["WSH"; "BOS"]);
                 ("Pos", StrCol ["Forward"; "Forward"]);
                 ("G", IntCol [5; 5]);
                 ("A", IntCol [3; 3]);
                 ("PIM", IntCol [2; 10]);
                 ("Hits", IntCol [7; 1])] |}.

(** A skater whose goals and assists are both [2^62]. *)
Definition skaters_huge : DataFrame :=
  {| index := [0];
     columns := [("Player Name", StrCol ["A"]);
                 ("G", IntCol [2 ^ 62]);
                 ("A", IntCol [2 ^ 62])] |}.

(** Two skaters: one with 5 goals and 3 assists, one whose goals and
    assists are both [2^62]. *)
Definition skaters_mixed : DataFrame :=
  {| index := [0; 1];
     columns := [("Player Name", StrCol ["A"; "B"]);
                 ("G", IntCol [5; 2 ^ 62]);
                 ("A", IntCol [3; 2 ^ 62])] |}.

(** Four skaters with their points, three of them forwards. *)
Definition skaters_positions : DataFrame :=
  {| index := [10; 20; 30; 40];
     columns := [("Player Name", StrCol ["A"; "B"; "C"; "D"]);
                 ("Pos", StrCol ["Forward"; "Defense"; "Forward"; "Forward"]);
                 ("Points", IntCol [1; 5; 2; 3])] |}.

(** Three ranked skaters. *)
Definition skaters_ranked : DataFrame :=
  {| index := [0; 1; 2];
     columns := [("Player Name", StrCol ["A"; "B"; "C"]);
                 ("Points", IntCol [8; 6; 2])] |}.

(** Goalies: 27 saves on 30 shots, 5 saves on no shot, nothing on no
    shot. *)
Definition goalies_zero_shots : DataFrame :=
  {| index := [0; 1; 2];
     columns := [("Player Name", StrCol ["X"; "Y"; "Z"]);
                 ("Team", StrCol ["BOS"; "WSH"; "COL"]);
                 ("SV", IntCol [27; 5; 0]);
                 ("SA", IntCol [30; 0; 0])] |}.

Definition player1 : object :=
  Player (PyStr "Player1") (PyStr "BOS") (PyStr "Forward") (PyInt 30) (PyInt 40).

Definition goalie1 : object :=
  Goalie (PyStr "Goalie1") (PyStr "CAN") (PyInt 27) (PyInt 3).

(** An entity that has the five attributes the [INSERT] reads. *)
Definition entity1 : object :=
  setattr player1 "country" (PyStr "CAN").

End Samples.

(** ** Vocabulary of the further statements *)

(** The positions at which a mask holds, counted from [start]. *)
Fixpoint true_positions (start : nat) (mask : list bool) : list nat :=
  match mask with
  | [] => []
  | b :: mask' =>
      if b then start :: true_positions (S start) mask'
      else true_positions (S start) mask'
  end.

(** Two columns of one dtype holding the same values, up to their order. *)
Definition col_Permutation (c c' : column) : Prop :=
  match c, c' with
  | IntCol v, IntCol v' => v ≡ₚ v'
  | FloatCol v, FloatCol v' => v ≡ₚ v'
  | StrCol v, StrCol v' => v ≡ₚ v'
  | _, _ => False
  end.

(** The character [c] occurs in [s]. *)
Fixpoint occurs (c : ascii) (s : string) : Prop :=
  match s with
  | EmptyString => False
  | String c' s' => c' = c \/ occurs c s'
  end.

(** The values of a column are already in the order a descending sort
    with missing values last would give them. *)
Definition ranked_desc (c : column) : Prop :=
  match c with
  | IntCol v =>
      forall (i j : nat) (x y : Z),
        (i < j)%nat -> v !! i = Some x -> v !! j = Some y -> y <= x
  | FloatCol v =>
      forall (i j : nat) (x y : float64),
        (i < j)%nat -> v !! i = Some x -> v !! j = Some y ->
        float64_ltb x y = false /\ (isnan x = true -> isnan y = true)
  | StrCol v =>
      forall (i j : nat) (x y : string),
        (i < j)%nat -> v !! i = Some x -> v !! j = Some y -> String.ltb x y = false
  end.

(** The same with no two equal values: every value is strictly below the
    values before it, and the missing values come last. *)
Definition strictly_ranked_desc (c : column) : Prop :=
  match c with
  | IntCol v =>
      forall (i j : nat) (x y : Z),
        (i < j)%nat -> v !! i = Some x -> v !! j = Some y -> y < x
  | FloatCol v =>
      forall (i j : nat) (x y : float64),
        (i < j)%nat -> v !! i = Some x -> v !! j = Some y ->
        (isnan x = true -> isnan y = true) /\
        (isnan y = false -> float64_ltb y x = true)
  | StrCol v =>
      forall (i j : nat) (x y : string),
        (i < j)%nat -> v !! i = Some x -> v !! j = Some y -> String.ltb y x = true
  end.

(** No two rows of a column hold equal values: of two values that are not
    missing, one is below the other. *)
Definition distinct_keys (c : column) : Prop :=
  match c with
  | IntCol v =>
      forall (i j : nat) (x y : Z),
        i <> j -> v !! i = Some x -> v !! j = Some y -> x <> y
  | FloatCol v =>
      forall (i j : nat) (x y : float64),
        i <> j -> v !! i = Some x -> v !! j = Some y ->
        isnan x = false -> isnan y = false ->
        float64_ltb x y = true \/ float64_ltb y x = true
  | StrCol v =>
      forall (i j : nat) (x y : string),
        i <> j -> v !! i = Some x -> v !! j = Some y -> x <> y
  end.

(** An object as [Player.__init__] or [Goalie.__init__] leaves it. *)
Definition constructed (o : object) : Prop :=
  (exists name team position goals penalty_minutes : pyval,
      o = Player name team position goals penalty_minutes) \/
  (exists name country saves goals_allowed : pyval,
      o = Goalie name country saves goals_allowed).

(** An order-preserving image of the floats that are not NaN: class, then
    exponent, then mantissa, mirrored for the negative ones. *)
Definition float64_key (x : float64) : Z * Z * Z :=
  match x with
  | S754_infinity true => (-2, 0, 0)
  | S754_finite true m e => (-1, - e, - Zpos m)
  | S754_zero _ => (0, 0, 0)
  | S754_nan => (0, 0, 0)
  | S754_finite false m e => (1, e, Zpos m)
  | S754_infinity false => (2, 0, 0)
  end.

Definition key_lt (a b : Z * Z * Z) : Prop :=
  a.1.1 < b.1.1 \/ (a.1.1 = b.1.1 /\ (a.1.2 < b.1.2 \/ (a.1.2 = b.1.2 /\ a.2 < b.2))).

(** * Verification *)

(** ** binary64 conversion and division *)

Lemma digits2_pos_bounds (p : positive) :
  2 ^ (Zpos (digits2_pos p) - 1) <= Zpos p < 2 ^ Zpos (digits2_pos p).
Proof.
  induction p as [p IH|p IH|]; simpl digits2_pos.
  - rewrite Pos2Z.inj_succ.
    replace (Z.succ (Zpos (digits2_pos p)) - 1) with (Z.succ (Zpos (digits2_pos p) - 1)) by lia.
    rewrite !Z.pow_succ_r by lia. lia.
  - rewrite Pos2Z.inj_succ.
    replace (Z.succ (Zpos (digits2_pos p)) - 1) with (Z.succ (Zpos (digits2_pos p) - 1)) by lia.
    rewrite !Z.pow_succ_r by lia. lia.
  - simpl. lia.
Qed.

Lemma Zdigits2_nonneg (m : Z) : 0 <= Zdigits2 m.
Proof. destruct m; simpl; lia. Qed.

Lemma Zdigits2_pos_iff (m : Z) : 0 <= m -> (0 < Zdigits2 m <-> 0 < m).
Proof. destruct m; simpl; lia. Qed.

Lemma Zdigits2_bounds (m : Z) :
  0 < m -> 2 ^ (Zdigits2 m - 1) <= m < 2 ^ Zdigits2 m.
Proof. destruct m; try lia. intros _. apply digits2_pos_bounds. Qed.

Lemma Zdigits2_le (m d : Z) : 0 < m -> m < 2 ^ d -> Zdigits2 m <= d.
Proof.
  intros Hm Hd. destruct (Z.le_gt_cases (Zdigits2 m) d) as [|Hgt]; [done|].
  pose proof (Zdigits2_bounds m Hm) as [Hlo _].
  assert (0 <= d).
  { destruct (Z.le_gt_cases 0 d); [done|]. rewrite Z.pow_neg_r in Hd by lia. lia. }
  assert (2 ^ d <= 2 ^ (Zdigits2 m - 1)) by (apply Z.pow_le_mono_r; lia).
  lia.
Qed.

Lemma Zdigits2_succ_le (m k : Z) :
  0 <= m -> m <= k <= m + 1 -> Zdigits2 m <= Zdigits2 k <= Zdigits2 m + 1.
Proof.
  intros Hm Hk. destruct (Z.eq_dec m 0) as [->|Hne].
  - assert (k = 0 \/ k = 1) as [->| ->] by lia; simpl; lia.
  - assert (0 < m) as Hm' by lia. assert (0 < k) as Hk' by lia.
    pose proof (Zdigits2_bounds m Hm') as [Hlo Hhi].
    pose proof (Zdigits2_bounds k Hk') as [Hlo' Hhi'].
    pose proof (proj2 (Zdigits2_pos_iff m Hm) Hm').
    split.
    + apply Zdigits2_le; [done|]. lia.
    + apply Zdigits2_le; [done|]. rewrite Z.pow_add_r by lia. lia.
Qed.

(** One right shift drops one binary digit. *)
Lemma shr_1_digits (r : shr_record) :
  0 <= shr_m r ->
  0 <= shr_m (shr_1 r) /\ Zdigits2 (shr_m (shr_1 r)) = Z.max 0 (Zdigits2 (shr_m r) - 1).
Proof.
  destruct r as [m r s]. simpl. intros Hm.
  destruct m as [|[p|p|]|p]; simpl; lia.
Qed.

Lemma iter_shr_1_digits (n : positive) (r : shr_record) :
  0 <= shr_m r ->
  0 <= shr_m (SpecFloat.iter_pos shr_1 n r) /\
  Zdigits2 (shr_m (SpecFloat.iter_pos shr_1 n r)) = Z.max 0 (Zdigits2 (shr_m r) - Zpos n).
Proof.
  revert r. induction n as [n IH|n IH|]; intros r Hr; simpl SpecFloat.iter_pos.
  - destruct (shr_1_digits r Hr) as [H1 E1].
    destruct (IH _ H1) as [H2 E2]. destruct (IH _ H2) as [H3 E3].
    split; [done|]. rewrite E3, E2, E1. lia.
  - destruct (IH _ Hr) as [H2 E2]. destruct (IH _ H2) as [H3 E3].
    split; [done|]. rewrite E3, E2. lia.
  - destruct (shr_1_digits r Hr) as [H1 E1]. split; [done|]. rewrite E1. lia.
Qed.

Lemma shr_m_record_of_loc (m : Z) (l : location) : shr_m (shr_record_of_loc m l) = m.
Proof. destruct l as [|[]]; reflexivity. Qed.

(** The rounding shift keeps the mantissa non-negative, raises the
    exponent to the format's, and drops as many digits. *)
Lemma shr_fexp_spec (m e : Z) (l : location) :
  0 <= m ->
  let '(r, e') := shr_fexp 53 1024 m e l in
  0 <= shr_m r /\
  e' = Z.max e (Z.max (Zdigits2 m + e - 53) (-1074)) /\
  Zdigits2 (shr_m r) = Z.max 0 (Zdigits2 m - (e' - e)).
Proof.
  intros Hm. unfold shr_fexp, shr, fexp, emin.
  pose proof (Zdigits2_nonneg m).
  destruct (Z.max (Zdigits2 m + e - 53) (3 - 1024 - 53) - e) as [|n|n] eqn:En.
  - rewrite shr_m_record_of_loc. lia.
  - destruct (iter_shr_1_digits n (shr_record_of_loc m l)) as [H1 E1];
      rewrite ?shr_m_record_of_loc in *; [done|].
    split; [done|]. split; [lia|]. rewrite E1. lia.
  - rewrite shr_m_record_of_loc. lia.
Qed.

Lemma round_nearest_even_bounds (m : Z) (l : location) :
  m <= round_nearest_even m l <= m + 1.
Proof. destruct l as [|[]]; simpl; try lia. destruct (Z.even m); lia. Qed.

(** Rounding a non-negative mantissa never yields NaN. *)
Lemma binary_round_aux_not_nan (sx : bool) (mx ex : Z) (lx : location) :
  0 <= mx -> binary_round_aux 53 1024 sx mx ex lx <> S754_nan.
Proof.
  intros Hm. unfold binary_round_aux.
  pose proof (shr_fexp_spec mx ex lx Hm) as H1.
  destruct (shr_fexp 53 1024 mx ex lx) as [r' e'].
  destruct H1 as (H1 & _ & _).
  pose proof (round_nearest_even_bounds (shr_m r') (loc_of_shr_record r')) as Hr.
  pose proof (shr_fexp_spec (round_nearest_even (shr_m r') (loc_of_shr_record r'))
                e' loc_Exact ltac:(lia)) as H2.
  destruct (shr_fexp 53 1024 _ e' loc_Exact) as [r'' e''].
  destruct H2 as (H2 & _ & _).
  destruct (shr_m r'') as [|p|p]; try done; try lia.
  destruct (e'' <=? 1024 - 53); done.
Qed.

(** Rounding a positive mantissa far from the overflow threshold yields a
    finite nonzero number of the given sign. *)
Lemma binary_round_aux_finite (sx : bool) (mx ex : Z) (lx : location) :
  0 < mx -> -1074 <= ex <= 900 -> Zdigits2 mx + ex <= 900 ->
  exists m e, binary_round_aux 53 1024 sx mx ex lx = S754_finite sx m e.
Proof.
  intros Hm Hex Hd. unfold binary_round_aux.
  pose proof (shr_fexp_spec mx ex lx ltac:(lia)) as H1.
  pose proof (proj2 (Zdigits2_pos_iff mx ltac:(lia)) Hm) as Hdp.
  destruct (shr_fexp 53 1024 mx ex lx) as [r' e'].
  destruct H1 as (H1 & E1 & D1).
  pose proof (round_nearest_even_bounds (shr_m r') (loc_of_shr_record r')) as Hr.
  set (m2 := round_nearest_even (shr_m r') (loc_of_shr_record r')) in *.
  pose proof (Zdigits2_succ_le (shr_m r') m2 H1 Hr) as Hd2.
  pose proof (shr_fexp_spec m2 e' loc_Exact ltac:(lia)) as H2.
  destruct (shr_fexp 53 1024 m2 e' loc_Exact) as [r'' e''].
  destruct H2 as (H2 & E2 & D2).
  assert (0 < shr_m r'') as Hpos by (apply Zdigits2_pos_iff; [exact H2 | lia]).
  destruct (shr_m r'') as [|p|p]; try lia.
  assert ((e'' <=? 1024 - 53) = true) as -> by (apply Z.leb_le; lia).
  eauto.
Qed.

Lemma digits2_pos_iter_xO (d p : positive) :
  Zpos (digits2_pos (Pos.iter xO p d)) = Zpos (digits2_pos p) + Zpos d.
Proof.
  induction d as [|d IH] using Pos.peano_ind.
  - simpl. lia.
  - rewrite Pos.iter_succ. simpl digits2_pos. lia.
Qed.

Lemma binary_round_finite (sx : bool) (p : positive) :
  Zpos p < 2 ^ 64 ->
  exists m e, binary_round 53 1024 sx p 0 = S754_finite sx m e.
Proof.
  intros Hp. unfold binary_round, shl_align, fexp, emin.
  assert (Zpos (digits2_pos p) <= 64) as Hd by (apply (Zdigits2_le (Zpos p)); lia).
  destruct (Z.max (Zpos (digits2_pos p) + 0 - 53) (3 - 1024 - 53) - 0) as [|d|d] eqn:Ed.
  - apply binary_round_aux_finite; simpl; lia.
  - apply binary_round_aux_finite; simpl; lia.
  - apply binary_round_aux_finite; [lia| lia |].
    simpl Zdigits2. rewrite digits2_pos_iter_xO. lia.
Qed.

(** Every nonzero [int64] converts to a finite nonzero [float64] of the
    same sign. *)
Lemma float64_of_int_finite (z : Z) :
  in_int64 z -> z <> 0 ->
  exists m e, float64_of_int z = S754_finite (z <? 0) m e.
Proof.
  unfold in_int64, int64_min, int64_max.
  intros Hz Hne. destruct z as [|p|p]; [done| |].
  - apply binary_round_finite. lia.
  - apply binary_round_finite. lia.
Qed.

Lemma float64_of_int_0 : float64_of_int 0 = S754_zero false.
Proof. reflexivity. Qed.

(** Division by an integer zero: NaN for [0 / 0], otherwise the infinity
    of the dividend's sign. *)
Lemma int64_truediv_by_zero (a : Z) :
  in_int64 a ->
  int64_truediv a 0 = if a =? 0 then nan else if a <? 0 then ninf else pinf.
Proof.
  intros Ha. unfold int64_truediv. rewrite float64_of_int_0.
  destruct (Z.eqb_spec a 0) as [->|Hne]; [reflexivity|].
  destruct (float64_of_int_finite a Ha Hne) as (m & e & ->).
  destruct (a <? 0); reflexivity.
Qed.

Lemma int64_truediv_not_nan (a b : Z) :
  in_int64 a -> in_int64 b -> b <> 0 -> isnan (int64_truediv a b) = false.
Proof.
  intros Ha Hb Hne. unfold int64_truediv.
  destruct (float64_of_int_finite b Hb Hne) as (mb & eb & ->).
  destruct (Z.eq_dec a 0) as [->|Hane].
  - rewrite float64_of_int_0. reflexivity.
  - destruct (float64_of_int_finite a Ha Hane) as (ma & ea & ->).
    unfold float64_div, SFdiv.
    destruct (SFdiv_core_binary 53 1024 (Z.pos ma) ea (Z.pos mb) eb) as [[mz ez] lz] eqn:Ecore.
    assert (0 <= mz) as Hmz.
    { unfold SFdiv_core_binary in Ecore.
      set (m' := match _ - _ - _ with Z0 => _ | Zpos _ => _ | Zneg _ => _ end) in Ecore.
      assert (0 <= m') as Hm'.
      { subst m'. destruct (_ - _ - _); try lia. apply Z.shiftl_nonneg. lia. }
      pose proof (Z_div_mod m' (Z.pos mb) ltac:(lia)) as Hdiv.
      destruct (Z.div_eucl m' (Z.pos mb)) as [q r]. injection Ecore as <- _ _. nia. }
    pose proof (binary_round_aux_not_nan (xorb (a <? 0) (b <? 0)) mz ez lz Hmz) as Hnn.
    destruct (binary_round_aux 53 1024 _ mz ez lz); done.
Qed.

(** NaN arises exactly from [0 / 0]. *)
Lemma int64_truediv_nan_iff (a b : Z) :
  in_int64 a -> in_int64 b ->
  isnan (int64_truediv a b) = true <-> a = 0 /\ b = 0.
Proof.
  intros Ha Hb. split.
  - intros Hnan. destruct (Z.eq_dec b 0) as [->|Hne].
    + rewrite int64_truediv_by_zero in Hnan by done.
      destruct (Z.eqb_spec a 0); [done|]. destruct (a <? 0); done.
    + rewrite int64_truediv_not_nan in Hnan by done. done.
  - intros [-> ->]. reflexivity.
Qed.


(** ** Columns of a frame *)

Lemma getitem_Ok (df : DataFrame) (k : string) (c : column) :
  getitem df k = Ok c <-> lookup_col k (columns df) = Some c.
Proof.
  unfold getitem. destruct (lookup_col k (columns df)); split; congruence.
Qed.

Lemma lookup_set_col_eq (k : string) (c : column) (cols : list (string * column)) :
  lookup_col k (set_col k c cols) = Some c.
Proof.
  induction cols as [|[k' c'] cols IH]; simpl.
  - by rewrite String.eqb_refl.
  - destruct (String.eqb_spec k' k) as [->|Hne]; simpl.
    + by rewrite String.eqb_refl.
    + destruct (String.eqb_spec k' k); [done|]. exact IH.
Qed.

Lemma lookup_set_col_ne (k k' : string) (c : column) (cols : list (string * column)) :
  k <> k' -> lookup_col k' (set_col k c cols) = lookup_col k' cols.
Proof.
  intros Hne. induction cols as [|[k0 c0] cols IH]; simpl.
  - destruct (String.eqb_spec k k'); [done|]. reflexivity.
  - destruct (String.eqb_spec k0 k) as [->|Hne0]; simpl.
    + destruct (String.eqb_spec k k'); [done|]. reflexivity.
    + destruct (String.eqb_spec k0 k'); [done|]. exact IH.
Qed.

Lemma getitem_setitem_eq (df : DataFrame) (k : string) (c : column) :
  getitem (setitem df k c) k = Ok c.
Proof. unfold getitem, setitem. simpl. by rewrite lookup_set_col_eq. Qed.

Lemma getitem_setitem_ne (df : DataFrame) (k k' : string) (c : column) :
  k <> k' -> getitem (setitem df k c) k' = getitem df k'.
Proof. intros Hne. unfold getitem, setitem. simpl. by rewrite lookup_set_col_ne. Qed.

(** ** The two derivations, step by step *)

Lemma calculate_points_run (skaters : DataFrame) (names g a points : column) :
  getitem skaters "Player Name" = Ok names ->
  getitem skaters "G" = Ok g ->
  getitem skaters "A" = Ok a ->
  series_add g a = Ok points ->
  calculate_points skaters =
    (setitem skaters "Points" points,
     Ok {| index := index skaters;
           columns := [("Player Name"%string, names); ("Points"%string, points)] |}).
Proof.
  intros Hn Hg Ha Hadd. unfold calculate_points, bind, read, assign.
  rewrite Hg, Ha, Hadd. f_equal.
  unfold getitem_list. simpl.
  apply getitem_Ok in Hn.
  rewrite lookup_set_col_ne by done. rewrite Hn. simpl.
  by rewrite lookup_set_col_eq.
Qed.

Lemma calculate_save_percentage_run (goalies : DataFrame) (names sv sa pct : column) :
  getitem goalies "Player Name" = Ok names ->
  getitem goalies "SV" = Ok sv ->
  getitem goalies "SA" = Ok sa ->
  series_truediv sv sa = Ok pct ->
  calculate_save_percentage goalies =
    (setitem goalies "SavePercentage" pct,
     Ok {| index := index goalies;
           columns := [("Player Name"%string, names); ("SavePercentage"%string, pct)] |}).
Proof.
  intros Hn Hsv Hsa Hdiv. unfold calculate_save_percentage, bind, read, assign.
  rewrite Hsv, Hsa, Hdiv. f_equal.
  unfold getitem_list. simpl.
  apply getitem_Ok in Hn.
  rewrite lookup_set_col_ne by done. rewrite Hn. simpl.
  by rewrite lookup_set_col_eq.
Qed.

(** ** Save percentage on zero shots *)

(** IEEE [==] against a NaN or an infinity. *)
Lemma float64_eqb_non_finite (x y : float64) :
  isfinite x = false -> isfinite y = true -> float64_eqb x y = false.
Proof. destruct x as [| [] | |], y as [| [] | |]; simpl; done. Qed.

(** C1 (amended): for a goalie with [SA = 0], [calculate_save_percentage]
    raises nothing and stores the IEEE quotient: NaN when [SV = 0], the
    infinity of the sign of [SV] otherwise. There is no separate sentinel;
    the value is never finite, so it compares equal to neither 0 nor 1. *)
Theorem calculate_save_percentage_zero_shots
    (goalies : DataFrame) (names : column) (sv sa : list Z) :
  getitem goalies "Player Name" = Ok names ->
  getitem goalies "SV" = Ok (IntCol sv) ->
  getitem goalies "SA" = Ok (IntCol sa) ->
  Forall in_int64 sv ->
  exists pct : list float64,
    calculate_save_percentage goalies =
      (setitem goalies "SavePercentage" (FloatCol pct),
       Ok {| index := index goalies;
             columns := [("Player Name"%string, names);
                         ("SavePercentage"%string, FloatCol pct)] |}) /\
    forall (i : nat) (saves : Z),
      sv !! i = Some saves -> sa !! i = Some 0 ->
      exists x : float64,
        pct !! i = Some x /\
        x = (if saves =? 0 then nan else if saves <? 0 then ninf else pinf) /\
        isfinite x = false /\
        float64_eqb x (float64_of_int 0) = false /\
        float64_eqb x (float64_of_int 1) = false.
Proof.
  intros Hn Hsv Hsa Hrange. exists (zip_with int64_truediv sv sa). split.
  - by apply (calculate_save_percentage_run goalies names (IntCol sv) (IntCol sa)).
  - intros i saves Hi Hz.
    exists (int64_truediv saves 0). rewrite lookup_zip_with, Hi, Hz. simpl.
    split; [done|].
    assert (in_int64 saves) as Hin.
    { rewrite Forall_forall in Hrange. apply Hrange. by eapply list_elem_of_lookup_2. }
    rewrite (int64_truediv_by_zero saves Hin).
    split; [done|].
    assert (isfinite (if saves =? 0 then nan else if saves <? 0 then ninf else pinf) = false) as Hnf.
    { destruct (saves =? 0); [done|]. destruct (saves <? 0); done. }
    split; [done|].
    split; apply float64_eqb_non_finite; done.
Qed.

Lemma calculate_save_percentage_zero_shots_witness :
  exists pct : list float64,
    outcome (calculate_save_percentage Samples.goalies_zero_shots) =
      Ok {| index := [0; 1; 2];
            columns := [("Player Name"%string, StrCol ["X"; "Y"; "Z"]%string);
                        ("SavePercentage"%string, FloatCol pct)] |} /\
    pct !! 1%nat = Some pinf /\ pct !! 2%nat = Some nan.
Proof.
  destruct (calculate_save_percentage_zero_shots Samples.goalies_zero_shots
              (StrCol ["X"; "Y"; "Z"]%string) [27; 5; 0] [30; 0; 0])
    as (pct & Hrun & Hrows); [reflexivity | reflexivity | reflexivity | |].
  - repeat constructor; unfold int64_min, int64_max; lia.
  - exists pct. rewrite Hrun. split; [reflexivity|].
    destruct (Hrows 1%nat 5 eq_refl eq_refl) as (x & -> & -> & _).
    destruct (Hrows 2%nat 0 eq_refl eq_refl) as (y & -> & -> & _).
    split; reflexivity.
Defined.

(** C1 as stated fails: on the two goalies without shots the caller gets an
    infinity and NaN. *)
Lemma calculate_save_percentage_nan_inf_counterexample :
  getitem Samples.goalies_zero_shots "SA" = Ok (IntCol [30; 0; 0]) /\
  outcome (calculate_save_percentage Samples.goalies_zero_shots) =
    Ok {| index := [0; 1; 2];
          columns := [("Player Name"%string, StrCol ["X"; "Y"; "Z"]%string);
                      ("SavePercentage"%string,
                        FloatCol [S754_finite false 8106479329266893 (-53);
                                  S754_infinity false; S754_nan])] |}.
Proof. split; reflexivity. Qed.

(** ** Points *)

Lemma wrap64_small (z : Z) : in_int64 z -> wrap64 z = z.
Proof.
  unfold in_int64, wrap64, int64_min, int64_max. intros Hz.
  rewrite Z.mod_small by lia. lia.
Qed.

(** C2 (amended): on integer columns [calculate_points] returns, and for
    each skater whose [G + A] is itself an [int64] the [Points] stored is
    exactly that sum, whatever the other rows hold. *)
Theorem calculate_points_exact
    (skaters : DataFrame) (names : column) (g a : list Z) :
  getitem skaters "Player Name" = Ok names ->
  getitem skaters "G" = Ok (IntCol g) ->
  getitem skaters "A" = Ok (IntCol a) ->
  exists points : list Z,
    calculate_points skaters =
      (setitem skaters "Points" (IntCol points),
       Ok {| index := index skaters;
             columns := [("Player Name"%string, names);
                         ("Points"%string, IntCol points)] |}) /\
    forall (i : nat) (goals assists : Z),
      g !! i = Some goals -> a !! i = Some assists ->
      in_int64 (goals + assists) ->
      points !! i = Some (goals + assists).
Proof.
  intros Hn Hg Ha. exists (zip_with int64_add g a). split.
  - by apply (calculate_points_run skaters names (IntCol g) (IntCol a)).
  - intros i goals assists Hi Hj Hsum.
    rewrite lookup_zip_with, Hi. simpl. rewrite Hj. simpl.
    unfold int64_add. by rewrite wrap64_small.
Qed.

Lemma calculate_points_exact_witness :
  exists points : list Z,
    outcome (calculate_points Samples.skaters_mixed) =
      Ok {| index := [0; 1];
            columns := [("Player Name"%string, StrCol ["A"; "B"]%string);
                        ("Points"%string, IntCol points)] |} /\
    points !! 0%nat = Some 8.
Proof.
  destruct (calculate_points_exact Samples.skaters_mixed
              (StrCol ["A"; "B"]%string) [5; 2 ^ 62] [3; 2 ^ 62])
    as (points & Hrun & Hrow); [reflexivity..|].
  exists points. split; [by rewrite Hrun|].
  apply (Hrow 0%nat 5 3); [reflexivity | reflexivity |].
  unfold in_int64, int64_min, int64_max. lia.
Defined.

(** C2 as stated fails where the sum leaves the 64-bit range: [2^62 + 2^62]
    is stored as [-2^63]. *)
Lemma calculate_points_wraps_counterexample :
  getitem Samples.skaters_huge "G" = Ok (IntCol [2 ^ 62]) /\
  getitem Samples.skaters_huge "A" = Ok (IntCol [2 ^ 62]) /\
  outcome (calculate_points Samples.skaters_huge) =
    Ok {| index := [0];
          columns := [("Player Name"%string, StrCol ["A"%string]);
                      ("Points"%string, IntCol [- 2 ^ 63])] |} /\
  2 ^ 62 + 2 ^ 62 <> - 2 ^ 63.
Proof. repeat split; try reflexivity. lia. Qed.

(** ** What a call leaves of its argument *)

(** C7 (amended): filtering and ranking leave the caller's frame as it was;
    the two derivations store their result on it, adding or overwriting the
    derived column in place. *)
Theorem caller_frame_after_call (df : DataFrame) (position : string) (n : Z) :
  final (filter_skaters_by_position position df) = df /\
  final (top_players_by_points n df) = df /\
  final (top_goalies_by_save_percentage n df) = df /\
  (forall g a points : column,
      getitem df "G" = Ok g -> getitem df "A" = Ok a -> series_add g a = Ok points ->
      final (calculate_points df) = setitem df "Points" points) /\
  (forall sv sa pct : column,
      getitem df "SV" = Ok sv -> getitem df "SA" = Ok sa -> series_truediv sv sa = Ok pct ->
      final (calculate_save_percentage df) = setitem df "SavePercentage" pct).
Proof.
  repeat split.
  - unfold filter_skaters_by_position, bind, read, final.
    by destruct (getitem df "Pos").
  - unfold top_players_by_points, bind, read, ret, final.
    by destruct (sort_values_desc df "Points").
  - unfold top_goalies_by_save_percentage, bind, read, ret, final.
    by destruct (sort_values_desc df "SavePercentage").
  - intros g a points Hg Ha Hadd.
    unfold calculate_points, bind, read, assign, final. by rewrite Hg, Ha, Hadd.
  - intros sv sa pct Hsv Hsa Hdiv.
    unfold calculate_save_percentage, bind, read, assign, final. by rewrite Hsv, Hsa, Hdiv.
Qed.

Lemma caller_frame_after_call_witness :
  final (filter_skaters_by_position "Forward" Samples.skaters_tied) = Samples.skaters_tied /\
  final (calculate_points Samples.skaters_tied) =
    setitem Samples.skaters_tied "Points" (IntCol [8; 8]).
Proof.
  destruct (caller_frame_after_call Samples.skaters_tied "Forward" 5)
    as (Hfilter & _ & _ & Hpoints & _).
  split; [exact Hfilter|].
  apply (Hpoints (IntCol [5; 5]) (IntCol [3; 3])); reflexivity.
Defined.

(** C7 as stated fails: after [calculate_points] the caller's frame has a
    column it did not have before. *)
Lemma calculate_points_mutates_counterexample :
  getitem Samples.skaters_tied "Points" = Raise KeyError /\
  getitem (final (calculate_points Samples.skaters_tied)) "Points" = Ok (IntCol [8; 8]) /\
  final (calculate_points Samples.skaters_tied) <> Samples.skaters_tied.
Proof.
  split; [reflexivity|]. split; [reflexivity|].
  intros Heq. apply (f_equal (fun df => getitem df "Points")) in Heq. discriminate Heq.
Qed.

(** ** What the derivations return *)

(** C8: what the derivations return. The frame returned holds the
    player's name and the derived column, nothing else; the other fields
    stay, unchanged, on the caller's frame only. *)
Theorem derivation_returns_name_and_metric (df : DataFrame) :
  (forall names g a points : column,
      getitem df "Player Name" = Ok names ->
      getitem df "G" = Ok g -> getitem df "A" = Ok a -> series_add g a = Ok points ->
      outcome (calculate_points df) =
        Ok {| index := index df;
              columns := [("Player Name"%string, names); ("Points"%string, points)] |} /\
      forall k : string,
        k <> "Points"%string -> getitem (final (calculate_points df)) k = getitem df k) /\
  (forall names sv sa pct : column,
      getitem df "Player Name" = Ok names ->
      getitem df "SV" = Ok sv -> getitem df "SA" = Ok sa -> series_truediv sv sa = Ok pct ->
      outcome (calculate_save_percentage df) =
        Ok {| index := index df;
              columns := [("Player Name"%string, names); ("SavePercentage"%string, pct)] |} /\
      forall k : string,
        k <> "SavePercentage"%string ->
        getitem (final (calculate_save_percentage df)) k = getitem df k).
Proof.
  split.
  - intros names g a points Hn Hg Ha Hadd.
    rewrite (calculate_points_run df names g a points) by done.
    split; [reflexivity|]. intros k Hk. simpl. by apply getitem_setitem_ne.
  - intros names sv sa pct Hn Hsv Hsa Hdiv.
    rewrite (calculate_save_percentage_run df names sv sa pct) by done.
    split; [reflexivity|]. intros k Hk. simpl. by apply getitem_setitem_ne.
Qed.

Lemma derivation_returns_name_and_metric_witness :
  outcome (calculate_points Samples.skaters_tied) =
    Ok {| index := [0; 1];
          columns := [("Player Name"%string, StrCol ["B"; "A"]%string);
                      ("Points"%string, IntCol [8; 8])] |} /\
  getitem (final (calculate_points Samples.skaters_tied)) "Hits" = Ok (IntCol [7; 1]).
Proof.
  destruct (derivation_returns_name_and_metric Samples.skaters_tied) as [Hpoints _].
  destruct (Hpoints (StrCol ["B"; "A"]%string) (IntCol [5; 5]) (IntCol [3; 3]) (IntCol [8; 8]))
    as [Hout Hkeep]; [reflexivity..|].
  split; [exact Hout|]. by rewrite Hkeep.
Defined.

(** C8 as stated fails: the frame returned by [calculate_points] has lost
    the team, the penalty minutes and the hits. *)
Lemma calculate_points_drops_fields_counterexample :
  exists out : DataFrame,
    outcome (calculate_points Samples.skaters_tied) = Ok out /\
    labels out = ["Player Name"; "Points"]%string /\
    getitem Samples.skaters_tied "Team" = Ok (StrCol ["WSH"; "BOS"]%string) /\
    getitem out "Team" = Raise KeyError /\
    getitem out "PIM" = Raise KeyError /\
    getitem out "Hits" = Raise KeyError.
Proof. eexists. repeat split. Qed.

(** ** Sorting *)

Lemma list_filter_split {A} (f : A -> bool) (l : list A) :
  List.filter (fun x => negb (f x)) l ++ List.filter f l ≡ₚ l.
Proof.
  induction l as [|x l IH]; simpl; [done|].
  destruct (f x); simpl.
  - rewrite <- Permutation_middle. by constructor.
  - by constructor.
Qed.

Section ArgsortFacts.
Context {K : Type}.
Variable ltb : K -> K -> bool.
Variable isna : K -> bool.

Lemma insert_key_Permutation (x : nat * K) (l : list (nat * K)) :
  insert_key ltb x l ≡ₚ x :: l.
Proof.
  induction l as [|y l IH]; simpl; [done|].
  destruct (ltb y.2 x.2); [|done].
  rewrite IH. apply perm_swap.
Qed.

Lemma argsort_Permutation (items : list (nat * K)) : argsort ltb items ≡ₚ items.
Proof.
  induction items as [|x items IH]; simpl; [done|].
  unfold argsort in *. simpl. rewrite insert_key_Permutation. by constructor.
Qed.

Lemma nargsort_desc_Permutation (items : list K) :
  nargsort_desc ltb isna items ≡ₚ seq 0 (length items).
Proof.
  unfold nargsort_desc.
  rewrite reverse_Permutation, argsort_Permutation, reverse_Permutation.
  rewrite <- fmap_app, list_filter_split.
  rewrite fst_zip; [done|]. by rewrite length_seq.
Qed.

(** The indexer lists the rows with a value first and the missing ones
    last. *)
Lemma nargsort_desc_missing_last (items : list K) :
  exists present missing : list nat,
    nargsort_desc ltb isna items = present ++ missing /\
    Forall (fun i => exists k, items !! i = Some k /\ isna k = false) present /\
    Forall (fun i => exists k, items !! i = Some k /\ isna k = true) missing.
Proof.
  unfold nargsort_desc.
  set (idx := zip (seq 0 (length items)) items).
  assert (forall p, p ∈ idx -> items !! p.1 = Some p.2) as Hidx.
  { intros [i k] Hp. apply list_elem_of_lookup in Hp as [n Hn].
    apply lookup_zip_with_Some in Hn as (i' & k' & [= <- <-] & Hs & Hk).
    apply lookup_seq in Hs as [-> _]. done. }
  eexists _, _. split; [reflexivity|]. split.
  - apply Forall_forall. intros i Hi.
    rewrite reverse_Permutation, argsort_Permutation, reverse_Permutation in Hi.
    apply list_elem_of_fmap in Hi as ([i' k] & -> & Hp).
    apply list_elem_of_In, filter_In in Hp as [Hp Hna].
    exists k. split; [by apply (Hidx (i', k)), list_elem_of_In|].
    simpl in Hna. by destruct (isna k).
  - apply Forall_forall. intros i Hi.
    apply list_elem_of_fmap in Hi as ([i' k] & -> & Hp).
    apply list_elem_of_In, filter_In in Hp as [Hp Hna].
    exists k. split; [by apply (Hidx (i', k)), list_elem_of_In | done].
Qed.
(** The missing ones are listed in the order of the input. *)
Lemma filter_positions_sorted (f : nat * K -> bool) (l : list (nat * K)) :
  StronglySorted lt (fst <$> l) -> StronglySorted lt (fst <$> List.filter f l).
Proof.
  induction l as [|x l IH]; simpl; [done|].
  intros Hs. apply StronglySorted_inv in Hs as [Hs Hx].
  destruct (f x); simpl; [|by apply IH].
  constructor; [by apply IH|].
  apply Forall_forall. intros i Hi.
  apply list_elem_of_fmap in Hi as (y & -> & Hy).
  apply list_elem_of_In, filter_In in Hy as [Hy _].
  rewrite Forall_forall in Hx. apply Hx.
  apply list_elem_of_fmap. exists y. split; [done | by apply list_elem_of_In].
Qed.

Lemma nargsort_desc_missing_order (items : list K) (p q i j : nat) (ki : K) :
  (p < q)%nat ->
  nargsort_desc ltb isna items !! p = Some i ->
  nargsort_desc ltb isna items !! q = Some j ->
  items !! i = Some ki -> isna ki = true ->
  (i < j)%nat.
Proof.
  intros Hpq Hp Hq Hi Hna. unfold nargsort_desc in Hp, Hq.
  set (idx := zip (seq 0 (length items)) items) in *.
  assert (forall r, r ∈ idx -> items !! r.1 = Some r.2) as Hin.
  { intros [r k] [n Hn]%list_elem_of_lookup.
    apply lookup_zip_with_Some in Hn as (r' & k' & [= <- <-] & Hs & Hk).
    apply lookup_seq in Hs as [-> _]. done. }
  set (sorted := reverse (argsort ltb (reverse (List.filter (fun r => negb (isna r.2)) idx)))) in *.
  assert (length (fst <$> sorted) <= p)%nat as Hp'.
  { destruct (decide (length (fst <$> sorted) <= p)%nat) as [|Hlt]; [done|]. exfalso.
    rewrite lookup_app_l in Hp by lia.
    apply list_lookup_fmap_Some in Hp as ([i' k] & -> & Hr).
    apply list_elem_of_lookup_2 in Hr. unfold sorted in Hr.
    rewrite reverse_Permutation, argsort_Permutation, reverse_Permutation in Hr.
    apply list_elem_of_In, filter_In in Hr as [Hr Hk].
    apply list_elem_of_In, Hin in Hr. simpl in *.
    assert (k = ki) as -> by congruence. by rewrite Hna in Hk. }
  rewrite lookup_app_r in Hp by lia. rewrite lookup_app_r in Hq by lia.
  assert (StronglySorted lt (fst <$> List.filter (fun r => isna r.2) idx)) as Hsorted.
  { apply filter_positions_sorted. unfold idx.
    rewrite fst_zip by (by rewrite length_seq).
    clear. generalize 0%nat. induction (length items) as [|n IH]; intros s; simpl.
    - constructor.
    - constructor; [apply IH|]. apply Forall_forall. intros x Hx%elem_of_seq. lia. }
  revert Hp Hq. generalize (fst <$> List.filter (fun r => isna r.2) idx) Hsorted.
  intros l Hl Hp Hq.
  rewrite <- (take_drop (q - length (fst <$> sorted)) l) in Hl.
  apply StronglySorted_app in Hl as (Hcross & _ & _).
  apply Hcross.
  - apply list_elem_of_lookup. exists (p - length (fst <$> sorted))%nat.
    rewrite lookup_take_lt by lia. done.
  - apply list_elem_of_lookup. exists 0%nat. rewrite lookup_drop, Nat.add_0_r. done.
Qed.

End ArgsortFacts.

Lemma StronglySorted_reverse {A} (R : relation A) (l : list A) :
  StronglySorted R l -> StronglySorted (flip R) (reverse l).
Proof.
  induction 1 as [|x l _ IH Hx]; [constructor|].
  rewrite reverse_cons. apply StronglySorted_app. split; [|split; [done|]].
  - intros a b Ha Hb. apply list_elem_of_singleton in Hb as ->.
    rewrite elem_of_reverse in Ha. rewrite Forall_forall in Hx. unfold flip. by apply Hx.
  - repeat constructor.
Qed.

Lemma StronglySorted_lookup {A} (R : relation A) (l : list A) (p q : nat) (a b : A) :
  StronglySorted R l -> (p < q)%nat -> l !! p = Some a -> l !! q = Some b -> R a b.
Proof.
  intros Hs Hpq Hp Hq. rewrite <- (take_drop q l) in Hs.
  apply (StronglySorted_app_1_elem_of _ _ _ _ _ Hs).
  - apply list_elem_of_lookup. exists p. by rewrite lookup_take_lt.
  - apply list_elem_of_lookup. exists 0%nat. rewrite lookup_drop. by rewrite Nat.add_0_r.
Qed.

(** With a strict order for [ltb], the indexer is descending. *)
Section ArgsortOrder.
Context {K : Type}.
Variable ltb : K -> K -> bool.
Variable isna : K -> bool.
Hypothesis ltb_asym : forall a b : K, ltb a b = true -> ltb b a = false.
Hypothesis ltb_trans : forall a b c : K, ltb b a = false -> ltb c b = false -> ltb c a = false.

(** [x] is not above [y]. *)
Let not_above (x y : nat * K) : Prop := ltb y.2 x.2 = false.

Lemma insert_key_sorted (x : nat * K) (l : list (nat * K)) :
  StronglySorted not_above l -> StronglySorted not_above (insert_key ltb x l).
Proof.
  induction 1 as [|y l Hs IH Hy]; simpl; [repeat constructor|].
  destruct (ltb y.2 x.2) eqn:Hyx.
  - constructor; [done|].
    rewrite insert_key_Permutation. constructor; [|done].
    by apply ltb_asym.
  - constructor; [by constructor|]. constructor; [done|].
    eapply Forall_impl; [exact Hy|]. intros z Hz. by eapply ltb_trans.
Qed.

Lemma argsort_sorted (items : list (nat * K)) :
  StronglySorted not_above (argsort ltb items).
Proof.
  induction items as [|x items IH]; [constructor|].
  by apply insert_key_sorted.
Qed.

Lemma nargsort_desc_descending (items : list K) (p q i j : nat) (ki kj : K) :
  (p < q)%nat ->
  nargsort_desc ltb isna items !! p = Some i ->
  nargsort_desc ltb isna items !! q = Some j ->
  items !! i = Some ki -> items !! j = Some kj ->
  isna kj = false ->
  ltb ki kj = false.
Proof.
  intros Hpq Hp Hq Hi Hj Hnj. unfold nargsort_desc in Hp, Hq.
  set (idx := zip (seq 0 (length items)) items) in *.
  assert (forall n r, idx !! n = Some r -> items !! r.1 = Some r.2) as Hidx.
  { intros n [r k] Hn.
    apply lookup_zip_with_Some in Hn as (r' & k' & [= <- <-] & Hs & Hk).
    apply lookup_seq in Hs as [-> _]. done. }
  assert (forall r, r ∈ idx -> items !! r.1 = Some r.2) as Hin.
  { intros r [n Hn]%list_elem_of_lookup. by eapply Hidx. }
  set (present := reverse (argsort ltb (reverse (List.filter (fun r => negb (isna r.2)) idx)))) in *.
  assert (forall r, r ∈ present -> items !! r.1 = Some r.2) as Hpresent.
  { intros r Hr. unfold present in Hr.
    rewrite reverse_Permutation, argsort_Permutation, reverse_Permutation in Hr.
    apply list_elem_of_In, filter_In in Hr as [Hr _]. by apply Hin, list_elem_of_In. }
  assert (q < length present)%nat as Hq'.
  { destruct (decide (q < length present)%nat) as [|Hge]; [done|]. exfalso.
    rewrite lookup_app_r in Hq by (rewrite length_fmap; lia).
    apply list_lookup_fmap_Some in Hq as ([j' k] & -> & Hr).
    apply list_elem_of_lookup_2, list_elem_of_In, filter_In in Hr as [Hr Hna].
    apply list_elem_of_In, Hin in Hr. simpl in *. congruence. }
  rewrite lookup_app_l in Hp by (rewrite length_fmap; lia).
  rewrite lookup_app_l in Hq by (rewrite length_fmap; lia).
  apply list_lookup_fmap_Some in Hp as ([i' ki'] & -> & Hp).
  apply list_lookup_fmap_Some in Hq as ([j' kj'] & -> & Hq).
  pose proof (Hpresent _ (list_elem_of_lookup_2 _ _ _ Hp)) as Hi'.
  pose proof (Hpresent _ (list_elem_of_lookup_2 _ _ _ Hq)) as Hj'.
  simpl in *. rewrite Hi in Hi'. rewrite Hj in Hj'.
  injection Hi' as ->. injection Hj' as ->.
  pose proof (StronglySorted_reverse _ _ (argsort_sorted
                (reverse (List.filter (fun r => negb (isna r.2)) idx)))) as Hsorted.
  apply (StronglySorted_lookup _ _ p q _ _ Hsorted Hpq Hp Hq).
Qed.
End ArgsortOrder.

Lemma float64_ltb_irrefl (x : float64) : float64_ltb x x = false.
Proof.
  destruct x as [s|s| |s m e]; try done; try (by destruct s).
  unfold float64_ltb, SFltb, SFcompare.
  rewrite Z.compare_refl, Pos.compare_cont_refl. by destruct s.
Qed.

Lemma string_ltb_irrefl (s : string) : String.ltb s s = false.
Proof.
  unfold String.ltb. pose proof (String.compare_antisym s s) as Hc.
  by destruct (String.compare s s).
Qed.

Lemma col_nargsort_desc_Permutation (c : column) :
  col_nargsort_desc c ≡ₚ seq 0 (col_len c).
Proof. destruct c; apply nargsort_desc_Permutation. Qed.

(** ** Selections by position *)

Lemma Permutation_seq_bound (indexer : list nat) (n : nat) :
  indexer ≡ₚ seq 0 n -> Forall (fun i => (i < n)%nat) indexer.
Proof.
  intros Hp. apply Forall_forall. intros i Hi.
  rewrite Hp in Hi. apply elem_of_seq in Hi. lia.
Qed.

Lemma take_by_cons {A} (i : nat) (indexer : list nat) (l : list A) :
  take_by (i :: indexer) l =
    match l !! i with
    | Some x => x :: take_by indexer l
    | None => take_by indexer l
    end.
Proof. reflexivity. Qed.

Lemma lookup_take_by {A} (indexer : list nat) (l : list A) (p : nat) :
  Forall (fun i => (i < length l)%nat) indexer ->
  take_by indexer l !! p = indexer !! p ≫= (fun i => l !! i).
Proof.
  intros Hv. revert p. induction Hv as [|i indexer Hi _ IH]; intros p; [done|].
  rewrite take_by_cons.
  destruct (lookup_lt_is_Some_2 l i Hi) as [x Hx]. rewrite Hx.
  destruct p as [|p]; simpl; [done | apply IH].
Qed.

Lemma length_take_by {A} (indexer : list nat) (l : list A) :
  Forall (fun i => (i < length l)%nat) indexer ->
  length (take_by indexer l) = length indexer.
Proof.
  induction 1 as [|i indexer Hi _ IH]; [done|].
  rewrite take_by_cons.
  destruct (lookup_lt_is_Some_2 l i Hi) as [x ->]. simpl. by rewrite IH.
Qed.

Lemma length_take_by_le {A} (indexer : list nat) (l : list A) :
  (length (take_by indexer l) <= length indexer)%nat.
Proof.
  induction indexer as [|i indexer IH]; [done|].
  rewrite take_by_cons. destruct (l !! i); simpl; lia.
Qed.

Lemma slice_stop_le (n : Z) (l : nat) : (slice_stop n l <= l)%nat.
Proof. unfold slice_stop. destruct (Z.ltb_spec n 0); lia. Qed.

Lemma slice_stop_spec (n : Z) (l : nat) :
  Z.of_nat (slice_stop n l) =
    if n <? 0 then Z.max 0 (Z.of_nat l + n) else Z.min n (Z.of_nat l).
Proof. unfold slice_stop. destruct (Z.ltb_spec n 0); lia. Qed.

Lemma wf_getitem_len (df : DataFrame) (k : string) (c : column) :
  wf df -> getitem df k = Ok c -> col_len c = len df.
Proof.
  intros [_ Hlen] Hk. apply getitem_Ok in Hk. revert Hlen Hk.
  generalize (len df). intros n.
  induction (columns df) as [|[k' c'] cols IH]; simpl; [done|].
  intros [Hc Hlen]%Forall_cons Hk.
  destruct (String.eqb k' k); [by injection Hk as <- | by apply IH].
Qed.

Lemma getitem_map_rows (f : forall A, list A -> list A) (df : DataFrame) (k : string) :
  getitem (map_rows f df) k = (c <-? getitem df k; Ok (col_map f c)).
Proof.
  unfold getitem, map_rows. simpl.
  induction (columns df) as [|[k' c'] cols IH]; simpl; [done|].
  destruct (String.eqb k' k); [done | exact IH].
Qed.

Lemma sort_values_desc_run (df : DataFrame) (k : string) (c : column) :
  getitem df k = Ok c -> sort_values_desc df k = Ok (take_rows (col_nargsort_desc c) df).
Proof. intros Hk. unfold sort_values_desc. by rewrite Hk. Qed.

Lemma len_take_rows (indexer : list nat) (df : DataFrame) :
  Forall (fun i => (i < len df)%nat) indexer -> len (take_rows indexer df) = length indexer.
Proof. intros Hv. unfold len, take_rows, map_rows. simpl. by apply length_take_by. Qed.

Lemma len_head (n : Z) (df : DataFrame) : len (head n df) = slice_stop n (len df).
Proof.
  unfold len at 1. unfold head, map_rows. simpl. rewrite length_take.
  pose proof (slice_stop_le n (len df)). unfold len in *. lia.
Qed.

(** A ranking method run on a frame that has the ranked column. *)
Lemma top_by_column_run (df : DataFrame) (k : string) (c : column) (n : Z) :
  wf df -> getitem df k = Ok c ->
  exists indexer : list nat,
    sort_values_desc df k = Ok (take_rows indexer df) /\
    indexer = col_nargsort_desc c /\
    indexer ≡ₚ seq 0 (len df) /\
    len (head n (take_rows indexer df)) = slice_stop n (len df).
Proof.
  intros Hwf Hk. exists (col_nargsort_desc c).
  pose proof (col_nargsort_desc_Permutation c) as Hperm.
  rewrite (wf_getitem_len df k c Hwf Hk) in Hperm.
  split; [by apply sort_values_desc_run|]. repeat split; [done|].
  rewrite len_head, len_take_rows; [|by apply Permutation_seq_bound].
  by rewrite Hperm, length_seq.
Qed.

(** ** Length of a ranking *)

(** C3 (amended): on a frame that has the ranked column, the ranking has
    [min n |input|] rows for [n >= 0] (none for [n = 0]); for [n < 0] it is
    not empty but holds all rows except the last [|n|]. *)
Theorem top_n_length (df : DataFrame) (n : Z) :
  wf df ->
  (forall c : column,
      getitem df "Points" = Ok c ->
      exists out : DataFrame,
        top_players_by_points n df = (df, Ok out) /\
        Z.of_nat (len out) =
          if n <? 0 then Z.max 0 (Z.of_nat (len df) + n) else Z.min n (Z.of_nat (len df))) /\
  (forall c : column,
      getitem df "SavePercentage" = Ok c ->
      exists out : DataFrame,
        top_goalies_by_save_percentage n df = (df, Ok out) /\
        Z.of_nat (len out) =
          if n <? 0 then Z.max 0 (Z.of_nat (len df) + n) else Z.min n (Z.of_nat (len df))).
Proof.
  intros Hwf. split; intros c Hc.
  - destruct (top_by_column_run df "Points" c n Hwf Hc) as (indexer & Hrun & _ & _ & Hlen).
    exists (head n (take_rows indexer df)). split.
    + unfold top_players_by_points, bind, read, ret. by rewrite Hrun.
    + rewrite Hlen. apply slice_stop_spec.
  - destruct (top_by_column_run df "SavePercentage" c n Hwf Hc)
      as (indexer & Hrun & _ & _ & Hlen).
    exists (head n (take_rows indexer df)). split.
    + unfold top_goalies_by_save_percentage, bind, read, ret. by rewrite Hrun.
    + rewrite Hlen. apply slice_stop_spec.
Qed.

Lemma skaters_ranked_wf : wf Samples.skaters_ranked.
Proof.
  split.
  - apply NoDup_cons. split; [|apply NoDup_singleton].
    intros Hin. apply list_elem_of_singleton in Hin. discriminate Hin.
  - repeat constructor.
Defined.

Lemma top_n_length_witness :
  exists out : DataFrame,
    top_players_by_points 2 Samples.skaters_ranked = (Samples.skaters_ranked, Ok out) /\
    Z.of_nat (len out) = 2.
Proof.
  destruct (top_n_length Samples.skaters_ranked 2 skaters_ranked_wf) as [Hpoints _].
  destruct (Hpoints (IntCol [8; 6; 2]) eq_refl) as (out & Hrun & Hlen).
  exists out. split; [exact Hrun | exact Hlen].
Defined.

(** C3 as stated fails for negative [n]: [n = -1] on three skaters returns
    the first two, not an empty frame. And a frame on which the points were
    never derived has nothing to rank by: the call raises. *)
Lemma top_players_negative_n_counterexample :
  outcome (top_players_by_points (-1) Samples.skaters_ranked) =
    Ok {| index := [0; 1];
          columns := [("Player Name"%string, StrCol ["A"; "B"]%string);
                      ("Points"%string, IntCol [8; 6])] |} /\
  outcome (top_players_by_points 2 Samples.skaters_tied) = Raise KeyError.
Proof. split; reflexivity. Qed.

(** ** Names and the ranking *)

Lemma int_nargsort_desc_descending (v : list Z) (p q i j : nat) (ki kj : Z) :
  (p < q)%nat ->
  col_nargsort_desc (IntCol v) !! p = Some i ->
  col_nargsort_desc (IntCol v) !! q = Some j ->
  v !! i = Some ki -> v !! j = Some kj ->
  kj <= ki.
Proof.
  intros Hpq Hp Hq Hi Hj.
  assert (Z.ltb ki kj = false) as Hlt; [|by apply Z.ltb_ge].
  apply (nargsort_desc_descending Z.ltb (fun _ => false)) with (items := v) (p := p) (q := q)
    (i := i) (j := j); try done.
  - intros a b Hab. apply Z.ltb_lt in Hab. apply Z.ltb_ge. lia.
  - intros a b c Hba Hcb. apply Z.ltb_ge in Hba, Hcb. apply Z.ltb_ge. lia.
Qed.

(** C5 (amended): the ranking is computed from the metric column alone and
    names play no part in it: frames with the same [Points] column have
    their rows rearranged by one and the same permutation of the row
    positions, whatever their names, and the names travel with their rows;
    the points come out in descending order. Nothing is said of the order
    among equal points. *)
Theorem top_players_order_from_points_alone (points : column) (n : Z) :
  exists indexer : list nat,
    indexer ≡ₚ seq 0 (col_len points) /\
    (forall skaters : DataFrame,
        wf skaters ->
        getitem skaters "Points" = Ok points ->
        top_players_by_points n skaters =
          (skaters, Ok (head n (take_rows indexer skaters))) /\
        forall names : list string,
          getitem skaters "Player Name" = Ok (StrCol names) ->
          getitem (take_rows indexer skaters) "Player Name" =
            Ok (StrCol (take_by indexer names)) /\
          forall p i : nat, indexer !! p = Some i -> take_by indexer names !! p = names !! i) /\
    (forall v : list Z,
        points = IntCol v ->
        forall (p q i j : nat) (ki kj : Z),
          (p < q)%nat -> indexer !! p = Some i -> indexer !! q = Some j ->
          v !! i = Some ki -> v !! j = Some kj -> kj <= ki).
Proof.
  exists (col_nargsort_desc points).
  pose proof (col_nargsort_desc_Permutation points) as Hperm.
  split; [done|]. split.
  - intros skaters Hwf Hpoints.
    destruct (top_by_column_run skaters "Points" points n Hwf Hpoints)
      as (indexer & Hrun & -> & _ & _).
    split.
    + unfold top_players_by_points, bind, read, ret. by rewrite Hrun.
    + intros names Hnames. split.
      * unfold take_rows. by rewrite getitem_map_rows, Hnames.
      * intros p i Hp. rewrite lookup_take_by, Hp; [done|].
        pose proof (wf_getitem_len skaters _ _ Hwf Hnames) as Hlen. simpl in Hlen.
        rewrite Hlen, <- (wf_getitem_len skaters _ _ Hwf Hpoints).
        by apply Permutation_seq_bound.
  - intros v -> p q i j ki kj Hpq Hp Hq Hi Hj.
    by apply (int_nargsort_desc_descending v p q i j).
Qed.

Lemma skaters_tied_points_wf :
  wf {| index := [0; 1];
        columns := [("Player Name"%string, StrCol ["B"; "A"]%string);
                    ("Points"%string, IntCol [8; 8])] |}.
Proof. split; [by apply (bool_decide_unpack _) | repeat constructor]. Defined.

Lemma skaters_tied_swapped_wf :
  wf {| index := [0; 1];
        columns := [("Player Name"%string, StrCol ["A"; "B"]%string);
                    ("Points"%string, IntCol [8; 8])] |}.
Proof. split; [by apply (bool_decide_unpack _) | repeat constructor]. Defined.

Lemma top_players_order_from_points_alone_witness :
  exists indexer : list nat,
    outcome (top_players_by_points 2
               {| index := [0; 1];
                  columns := [("Player Name"%string, StrCol ["B"; "A"]%string);
                              ("Points"%string, IntCol [8; 8])] |}) =
      Ok (head 2 (take_rows indexer
               {| index := [0; 1];
                  columns := [("Player Name"%string, StrCol ["B"; "A"]%string);
                              ("Points"%string, IntCol [8; 8])] |})) /\
    outcome (top_players_by_points 2
               {| index := [0; 1];
                  columns := [("Player Name"%string, StrCol ["A"; "B"]%string);
                              ("Points"%string, IntCol [8; 8])] |}) =
      Ok (head 2 (take_rows indexer
               {| index := [0; 1];
                  columns := [("Player Name"%string, StrCol ["A"; "B"]%string);
                              ("Points"%string, IntCol [8; 8])] |})).
Proof.
  destruct (top_players_order_from_points_alone (IntCol [8; 8]) 2)
    as (indexer & _ & Hrun & _).
  exists indexer. split.
  - destruct (Hrun _ skaters_tied_points_wf eq_refl) as [-> _]. reflexivity.
  - destruct (Hrun _ skaters_tied_swapped_wf eq_refl) as [-> _]. reflexivity.
Defined.

(** C5 as stated fails: [B] and [A] both have 8 points and [B] is returned
    first although ["A" < "B"]. *)
Lemma tie_not_broken_by_name_counterexample :
  exists points : DataFrame,
    outcome (calculate_points Samples.skaters_tied) = Ok points /\
    outcome (top_players_by_points 2 points) =
      Ok {| index := [0; 1];
            columns := [("Player Name"%string, StrCol ["B"; "A"]%string);
                        ("Points"%string, IntCol [8; 8])] |} /\
    String.ltb "A" "B" = true.
Proof. eexists. repeat split. Qed.

(** ** Goalies without a save percentage *)

Lemma lookup_ranked {A} (k : nat) (indexer : list nat) (l : list A) (p : nat) (x : A) :
  Forall (fun i => (i < length l)%nat) indexer ->
  take k (take_by indexer l) !! p = Some x <->
  (p < k)%nat /\ exists i : nat, indexer !! p = Some i /\ l !! i = Some x.
Proof.
  intros Hv. rewrite lookup_take_Some, lookup_take_by by done.
  destruct (indexer !! p) as [i|]; simpl.
  - split; [intros [Hx Hp]; eauto | intros (Hp & j & [= <-] & Hx); done].
  - split; [intros [[=] _] | intros (_ & j & [=] & _)].
Qed.

Lemma head_all (n : Z) (df : DataFrame) :
  Forall (fun kc => (col_len kc.2 <= len df)%nat) (columns df) ->
  Z.of_nat (len df) <= n -> head n df = df.
Proof.
  intros Hcols Hn. unfold head, map_rows.
  assert (slice_stop n (len df) = len df) as -> by (unfold slice_stop; destruct (Z.ltb_spec n 0); lia).
  destruct df as [idx cols]. unfold len in *. simpl in *. f_equal.
  - by apply take_ge.
  - induction Hcols as [|[k c] cols Hc _ IH]; [done|]. rewrite fmap_cons, IH. f_equal.
    simpl in *. f_equal. destruct c; simpl in *; f_equal; by apply take_ge.
Qed.

Lemma take_rows_col_len (indexer : list nat) (df : DataFrame) :
  Forall (fun i => (i < len df)%nat) indexer ->
  Forall (fun kc => (col_len kc.2 <= len (take_rows indexer df))%nat)
    (columns (take_rows indexer df)).
Proof.
  intros Hv. rewrite len_take_rows by done. unfold take_rows, map_rows. simpl.
  apply Forall_fmap, Forall_forall. intros [k c] _. simpl.
  destruct c; simpl; apply length_take_by_le.
Qed.

(** C4 (amended): ranking by save percentage puts every goalie whose value
    is NaN, which are exactly those with no save on no shot, after all
    others, and keeps them all when [n] is at least the number of goalies.
    A goalie with saves but no shot has an infinity, which is not NaN. *)
Theorem top_goalies_nan_last
    (goalies : DataFrame) (names : column) (sv sa : list Z) (n : Z) :
  wf goalies ->
  getitem goalies "Player Name" = Ok names ->
  getitem goalies "SV" = Ok (IntCol sv) ->
  getitem goalies "SA" = Ok (IntCol sa) ->
  Forall in_int64 sv -> Forall in_int64 sa ->
  exists (ranked : DataFrame) (sv' sa' : list Z) (pct' : list float64),
    top_goalies_by_save_percentage n (final (calculate_save_percentage goalies)) =
      (final (calculate_save_percentage goalies), Ok ranked) /\
    getitem ranked "SV" = Ok (IntCol sv') /\
    getitem ranked "SA" = Ok (IntCol sa') /\
    getitem ranked "SavePercentage" = Ok (FloatCol pct') /\
    (forall (p : nat) (x : float64),
        pct' !! p = Some x ->
        exists saves shots : Z,
          sv' !! p = Some saves /\ sa' !! p = Some shots /\
          x = int64_truediv saves shots /\
          (isnan x = true <-> saves = 0 /\ shots = 0)) /\
    (forall (p q : nat) (x y : float64),
        (p < q)%nat -> pct' !! p = Some x -> pct' !! q = Some y ->
        isnan x = true -> isnan y = true) /\
    (Z.of_nat (len goalies) <= n ->
     exists indexer : list nat,
       indexer ≡ₚ seq 0 (len goalies) /\
       ranked = take_rows indexer (final (calculate_save_percentage goalies))).
Proof.
  intros Hwf Hn Hsv Hsa Hrsv Hrsa.
  set (pct := zip_with int64_truediv sv sa).
  rewrite (calculate_save_percentage_run goalies names (IntCol sv) (IntCol sa) (FloatCol pct))
    by done.
  unfold final. simpl.
  set (goalies' := setitem goalies "SavePercentage" (FloatCol pct)).
  pose proof (wf_getitem_len _ _ _ Hwf Hsv) as Lsv.
  pose proof (wf_getitem_len _ _ _ Hwf Hsa) as Lsa. simpl in Lsv, Lsa.
  assert (length pct = len goalies) as Lpct.
  { unfold pct. rewrite length_zip_with. lia. }
  set (indexer := nargsort_desc float64_ltb isnan pct).
  assert (indexer ≡ₚ seq 0 (len goalies)) as Hperm.
  { unfold indexer. by rewrite nargsort_desc_Permutation, Lpct. }
  pose proof (Permutation_seq_bound _ _ Hperm) as Hvalid.
  assert (getitem goalies' "SavePercentage" = Ok (FloatCol pct)) as Hpct
    by apply getitem_setitem_eq.
  assert (getitem goalies' "SV" = Ok (IntCol sv)) as Hsv'
    by (unfold goalies'; by rewrite getitem_setitem_ne).
  assert (getitem goalies' "SA" = Ok (IntCol sa)) as Hsa'
    by (unfold goalies'; by rewrite getitem_setitem_ne).
  set (k := slice_stop n (len (take_rows indexer goalies'))).
  exists (head n (take_rows indexer goalies')),
    (take k (take_by indexer sv)), (take k (take_by indexer sa)),
    (take k (take_by indexer pct)).
  assert (forall (p : nat) (x : float64),
             take k (take_by indexer pct) !! p = Some x ->
             (p < k)%nat /\ exists i saves shots,
               indexer !! p = Some i /\ pct !! i = Some x /\
               sv !! i = Some saves /\ sa !! i = Some shots /\
               x = int64_truediv saves shots) as Hrow.
  { intros p x Hp. apply lookup_ranked in Hp as (Hpk & i & Hi & Hx); [|by rewrite Lpct].
    split; [done|].
    pose proof Hx as Hx'. unfold pct in Hx'.
    apply lookup_zip_with_Some in Hx' as (saves & shots & -> & Hs & Ha).
    by exists i, saves, shots. }
  split; [|split; [|split; [|split; [|split; [|split]]]]].
  - unfold top_goalies_by_save_percentage, bind, read, ret.
    by rewrite (sort_values_desc_run goalies' _ _ Hpct).
  - unfold head, take_rows. by rewrite !getitem_map_rows, Hsv'.
  - unfold head, take_rows. by rewrite !getitem_map_rows, Hsa'.
  - unfold head, take_rows. by rewrite !getitem_map_rows, Hpct.
  - intros p x Hp.
    destruct (Hrow p x Hp) as (Hpk & i & saves & shots & Hi & Hx & Hs & Ha & ->).
    exists saves, shots. split; [|split; [|split; [done|]]].
    + apply lookup_ranked; [by rewrite Lsv|]. eauto.
    + apply lookup_ranked; [by rewrite Lsa|]. eauto.
    + apply int64_truediv_nan_iff.
      * rewrite Forall_forall in Hrsv. apply Hrsv. by eapply list_elem_of_lookup_2.
      * rewrite Forall_forall in Hrsa. apply Hrsa. by eapply list_elem_of_lookup_2.
  - intros p q x y Hpq Hp Hq Hnan.
    destruct (Hrow p x Hp) as (_ & i & _ & _ & Hi & Hx & _).
    destruct (Hrow q y Hq) as (_ & j & _ & _ & Hj & Hy & _).
    destruct (nargsort_desc_missing_last float64_ltb isnan pct)
      as (present & missing & Hsplit & Hpresent & Hmissing).
    fold indexer in Hsplit. rewrite Hsplit in Hi, Hj.
    destruct (decide (p < length present)%nat) as [Hlt|Hge].
    + rewrite lookup_app_l in Hi by done.
      rewrite Forall_forall in Hpresent.
      destruct (Hpresent i) as (x' & Hx' & Hx'nan); [by eapply list_elem_of_lookup_2|].
      congruence.
    + rewrite lookup_app_r in Hj by lia.
      rewrite Forall_forall in Hmissing.
      destruct (Hmissing j) as (y' & Hy' & Hy'nan); [by eapply list_elem_of_lookup_2|].
      congruence.
  - intros Hlarge. exists indexer. split; [done|].
    apply head_all.
    + by apply take_rows_col_len.
    + rewrite len_take_rows by done. rewrite Hperm, length_seq. done.
Qed.

Lemma goalies_zero_shots_wf : wf Samples.goalies_zero_shots.
Proof. split; [by apply (bool_decide_unpack _) | repeat constructor]. Defined.

Lemma top_goalies_nan_last_witness :
  exists (ranked : DataFrame) (pct' : list float64),
    outcome (top_goalies_by_save_percentage 3
               (final (calculate_save_percentage Samples.goalies_zero_shots))) = Ok ranked /\
    getitem ranked "SavePercentage" = Ok (FloatCol pct') /\
    forall (p q : nat) (x y : float64),
      (p < q)%nat -> pct' !! p = Some x -> pct' !! q = Some y ->
      isnan x = true -> isnan y = true.
Proof.
  destruct (top_goalies_nan_last Samples.goalies_zero_shots
              (StrCol ["X"; "Y"; "Z"]%string) [27; 5; 0] [30; 0; 0] 3
              goalies_zero_shots_wf eq_refl eq_refl eq_refl)
    as (ranked & sv' & sa' & pct' & Hrun & _ & _ & Hpct & _ & Hlast & _).
  - repeat constructor; unfold int64_min, int64_max; lia.
  - repeat constructor; unfold int64_min, int64_max; lia.
  - exists ranked, pct'. rewrite Hrun. split; [reflexivity|]. split; [exact Hpct | exact Hlast].
Defined.

(** C4 as stated fails: goalie [Y] faced no shot but has 5 saves, gets an
    infinite save percentage and is ranked first, ahead of [X] whose value
    is defined. *)
Lemma zero_shots_goalie_ranked_first_counterexample :
  getitem Samples.goalies_zero_shots "SA" = Ok (IntCol [30; 0; 0]) /\
  outcome (top_goalies_by_save_percentage 3
             (final (calculate_save_percentage Samples.goalies_zero_shots))) =
    Ok {| index := [1; 0; 2];
          columns := [("Player Name"%string, StrCol ["Y"; "X"; "Z"]%string);
                      ("Team"%string, StrCol ["WSH"; "BOS"; "COL"]%string);
                      ("SV"%string, IntCol [5; 27; 0]);
                      ("SA"%string, IntCol [0; 30; 0]);
                      ("SavePercentage"%string,
                        FloatCol [S754_infinity false;
                                  S754_finite false 8106479329266893 (-53);
                                  S754_nan])] |}.
Proof. split; reflexivity. Qed.

(** ** Team codes *)

Lemma span_upper_spec (s run rest : string) :
  Re.span_upper s = (run, rest) ->
  s = run +:+ rest /\ all_upper run = true /\
  match rest with
  | String c _ => Re.is_upper c = false
  | EmptyString => True
  end.
Proof.
  revert run rest. induction s as [|c s IH]; intros run rest; simpl.
  - by intros [= <- <-].
  - destruct (Re.is_upper c) eqn:Hc.
    + destruct (Re.span_upper s) as [run' rest'].
      intros [= <- <-]. destruct (IH run' rest' eq_refl) as (-> & Hup & Hrest).
      simpl. by rewrite Hc, Hup.
    + intros [= <- <-]. simpl. by rewrite Hc.
Qed.

Lemma span_upper_app (code rest : string) :
  all_upper code = true ->
  match rest with
  | String c _ => Re.is_upper c = false
  | EmptyString => True
  end ->
  Re.span_upper (code +:+ rest) = (code, rest).
Proof.
  intros Hup Hrest. induction code as [|c code IH]; simpl in *.
  - destruct rest as [|c rest]; [done|]. simpl. by rewrite Hrest.
  - apply andb_true_iff in Hup as [Hc Hup]. by rewrite Hc, IH.
Qed.

(** The matcher at one position agrees with the description. *)
Lemma match_at_tagged (s code : string) :
  Re.match_at s = Some code <-> tagged_at s code.
Proof.
  unfold Re.match_at, tagged_at. split.
  - destruct s as [|c s]; [done|].
    destruct (Ascii.eqb_spec c "("%char) as [->|Hne].
    2:{ destruct c as [[] [] [] [] [] [] [] []]; try done. }
    destruct (Re.span_upper s) as [run rest] eqn:Hspan.
    apply span_upper_spec in Hspan as (-> & Hup & Hrest).
    destruct run as [|c run]; [done|].
    destruct rest as [|c' post]; [done|].
    destruct (Ascii.eqb_spec c' ")"%char) as [->|Hne].
    2:{ destruct c' as [[] [] [] [] [] [] [] []]; try done. }
    intros [= <-]. eauto.
  - intros (Hne & Hup & post & ->).
    rewrite (span_upper_app code (String ")"%char post)) by done.
    destruct code; done.
Qed.

Lemma tagged_from_0 (s code : string) : tagged_from 0 s code <-> tagged_at s code.
Proof.
  split.
  - intros (pre & rest & -> & Hlen & Htag). by destruct pre.
  - intros Htag. by exists EmptyString, s.
Qed.

Lemma tagged_from_S (n : nat) (c : ascii) (s code : string) :
  tagged_from (S n) (String c s) code <-> tagged_from n s code.
Proof.
  split.
  - intros (pre & rest & Heq & Hlen & Htag).
    destruct pre as [|c' pre]; [done|]. simpl in *.
    injection Heq as -> ->. injection Hlen as Hlen. by exists pre, rest.
  - intros (pre & rest & -> & Hlen & Htag).
    exists (String c pre), rest. simpl. by rewrite Hlen.
Qed.

Lemma tagged_from_empty (n : nat) (code : string) : ~ tagged_from n EmptyString code.
Proof.
  intros (pre & rest & Heq & _ & _ & _ & post & ->).
  destruct pre; discriminate Heq.
Qed.

Lemma search_Some (s code : string) :
  Re.search s = Some code <->
  exists n : nat,
    tagged_from n s code /\
    forall (n' : nat) (code' : string), tagged_from n' s code' -> (n <= n')%nat.
Proof.
  revert code. induction s as [|c s IH]; intros code.
  - simpl. split; [done|]. intros (n & Htag & _). by apply tagged_from_empty in Htag.
  - change (Re.search (String c s))
      with (match Re.match_at (String c s) with
            | Some g => Some g
            | None => Re.search s
            end).
    destruct (Re.match_at (String c s)) as [g|] eqn:Hm.
    + apply match_at_tagged in Hm. split.
      * intros [= <-]. exists 0%nat. split; [by apply tagged_from_0 | intros; lia].
      * intros (n & Htag & Hmin).
        assert (n = 0%nat) as -> by (specialize (Hmin 0%nat g (proj2 (tagged_from_0 _ _) Hm)); lia).
        apply tagged_from_0, match_at_tagged in Htag.
        apply match_at_tagged in Hm. congruence.
    + assert (forall code', ~ tagged_from 0 (String c s) code') as Hno.
      { intros code' Htag%tagged_from_0%match_at_tagged. congruence. }
      rewrite IH. split.
      * intros (n & Htag & Hmin). exists (S n). split; [by apply tagged_from_S|].
        intros [|n'] code' Htag'; [by apply Hno in Htag'|].
        apply tagged_from_S in Htag'. apply Hmin in Htag'. lia.
      * intros ([|n] & Htag & Hmin); [by apply Hno in Htag|].
        exists n. split; [by apply tagged_from_S in Htag|].
        intros n' code' Htag'. apply (tagged_from_S n' c) in Htag'.
        apply Hmin in Htag'. lia.
Qed.

Lemma search_None (s : string) :
  Re.search s = None <-> forall (n : nat) (code : string), ~ tagged_from n s code.
Proof.
  induction s as [|c s IH].
  - simpl. split; [|done]. intros _ n code. apply tagged_from_empty.
  - change (Re.search (String c s))
      with (match Re.match_at (String c s) with
            | Some g => Some g
            | None => Re.search s
            end).
    destruct (Re.match_at (String c s)) as [g|] eqn:Hm.
    + split; [done|]. intros Hno. apply match_at_tagged, tagged_from_0 in Hm.
      by apply Hno in Hm.
    + rewrite IH. split.
      * intros Hno [|n] code Htag.
        -- apply tagged_from_0, match_at_tagged in Htag. congruence.
        -- apply tagged_from_S in Htag. by apply Hno in Htag.
      * intros Hno n code Htag. apply (tagged_from_S n c) in Htag. by apply Hno in Htag.
Qed.

(** C6: [extract_team_code] returns the capitals of the first parenthesised
    run of one or more capitals, and [None], without raising, when the text
    has none. *)
Theorem extract_team_code_first_tag (player_info : string) :
  (forall code : string,
      extract_team_code player_info = Some code <->
      exists n : nat,
        tagged_from n player_info code /\
        forall (n' : nat) (code' : string),
          tagged_from n' player_info code' -> (n <= n')%nat) /\
  (extract_team_code player_info = None <->
   forall (n : nat) (code : string), ~ tagged_from n player_info code) /\
  extract_team_code "John Smith (BOS)" = Some "BOS"%string /\
  extract_team_code "John Smith" = None.
Proof.
  unfold extract_team_code. split; [|split; [|split]].
  - intros code. apply search_Some.
  - apply search_None.
  - reflexivity.
  - reflexivity.
Qed.

(** ** The snapshot table *)

Lemma insert_params_length (player : object) (params : list pyval) :
  insert_params player = Ok params -> length params = 5%nat.
Proof.
  unfold insert_params.
  destruct (getattr player "name"); [simpl|done].
  destruct (getattr player "country"); [simpl|done].
  destruct (getattr player "position"); [simpl|done].
  destruct (getattr player "goals"); [simpl|done].
  destruct (getattr player "penalty_minutes"); [simpl|done].
  by intros [= <-].
Qed.

Lemma table_eta (t : table) : mkTable (schema t) (rows t) = t.
Proof. by destruct t. Qed.

(** The loop appends one row per player, in order, to the table it finds. *)
Lemma insert_players_appends
    (players : list object) (new_rows : list (list sqlval)) (db : database) (t : table) :
  db !! "players"%string = Some t ->
  length (schema t) = 5%nat ->
  Forall2 (fun player row => player_row player = Ok row) players new_rows ->
  insert_players players db =
    Ok (<["players"%string := mkTable (schema t) (rows t ++ new_rows)]> db).
Proof.
  intros Ht Hlen Hrows. revert db t Ht Hlen.
  induction Hrows as [|player row players new_rows Hrow _ IH]; intros db t Ht Hlen.
  - simpl. rewrite app_nil_r, table_eta. by rewrite insert_id.
  - simpl. unfold player_row in Hrow.
    destruct (insert_params player) as [params|] eqn:Hparams; [simpl in *|done].
    unfold insert_values. rewrite Ht.
    rewrite (insert_params_length _ _ Hparams), Hlen. simpl. rewrite Hrow. simpl.
    rewrite (IH _ (mkTable (schema t) (rows t ++ [row]))); simpl.
    + by rewrite insert_insert_eq, <- app_assoc.
    + by rewrite lookup_insert_eq.
    + done.
Qed.

Lemma create_database_run
    (players : list object) (new_rows : list (list sqlval)) (file : database) :
  length (schema (players_table file)) = 5%nat ->
  Forall2 (fun player row => player_row player = Ok row) players new_rows ->
  create_database players file =
    (<["players"%string :=
         mkTable (schema (players_table file)) (rows (players_table file) ++ new_rows)]> file,
     Ok tt).
Proof.
  intros Hlen Hrows.
  unfold create_database, create_table_if_not_exists, players_table in *.
  destruct (file !! "players"%string) as [t|] eqn:Ht; simpl in *.
  - by rewrite (insert_players_appends players new_rows file t).
  - rewrite (insert_players_appends players new_rows _ (mkTable players_schema [])); simpl.
    + by rewrite insert_insert_eq.
    + by rewrite lookup_insert_eq.
    + done.
    + done.
Qed.

Lemma created_table (file : database) :
  create_table_if_not_exists "players" players_schema file =
    <["players"%string := players_table file]> file /\
  create_table_if_not_exists "players" players_schema file !! "players"%string =
    Some (players_table file).
Proof.
  unfold create_table_if_not_exists, players_table.
  destruct (file !! "players"%string) as [t|] eqn:Ht; simpl.
  - by rewrite insert_id.
  - by rewrite lookup_insert_eq.
Qed.

(** A loop that ends normally has bound one row per player and appended
    them all. *)
Lemma insert_players_Ok (players : list object) (db db' : database) (t : table) :
  db !! "players"%string = Some t ->
  insert_players players db = Ok db' ->
  exists new_rows : list (list sqlval),
    Forall2 (fun player row => player_row player = Ok row) players new_rows /\
    db' = <["players"%string := mkTable (schema t) (rows t ++ new_rows)]> db /\
    (players <> [] -> length (schema t) = 5%nat).
Proof.
  revert db t. induction players as [|player players IH]; intros db t Ht; simpl.
  - intros [= <-]. exists []. split; [constructor|]. split; [|done].
    by rewrite app_nil_r, table_eta, insert_id.
  - destruct (insert_params player) as [params|e] eqn:Hparams; [simpl|done].
    unfold insert_values. rewrite Ht.
    rewrite (insert_params_length _ _ Hparams).
    destruct (length (schema t) =? 5)%nat eqn:Hlen; [|done].
    apply Nat.eqb_eq in Hlen.
    destruct (bind_params params) as [row|e] eqn:Hrow; [simpl|done].
    intros Hrest.
    apply (IH _ (mkTable (schema t) (rows t ++ [row]))) in Hrest
      as (new_rows & Hrows & -> & _); [|by rewrite lookup_insert_eq].
    exists (row :: new_rows). split; [|split; [|done]].
    + constructor; [|done]. unfold player_row. by rewrite Hparams.
    + simpl. by rewrite insert_insert_eq, <- app_assoc.
Qed.

(** When and how [create_database] ends normally. *)
Lemma create_database_Ok (players : list object) (file file' : database) :
  create_database players file = (file', Ok tt) <->
  exists new_rows : list (list sqlval),
    Forall2 (fun player row => player_row player = Ok row) players new_rows /\
    (players <> [] -> length (schema (players_table file)) = 5%nat) /\
    file' = <["players"%string :=
                mkTable (schema (players_table file))
                  (rows (players_table file) ++ new_rows)]> file.
Proof.
  destruct (created_table file) as [Hcreated Hlookup]. split.
  - unfold create_database.
    destruct (insert_players players _) as [db'|e] eqn:Hloop; [|done].
    intros [= <-].
    destruct (insert_players_Ok _ _ _ _ Hlookup Hloop) as (new_rows & Hrows & -> & Hlen).
    exists new_rows. split; [done|]. split; [done|].
    by rewrite Hcreated, insert_insert_eq.
  - intros (new_rows & Hrows & Hlen & ->).
    destruct players as [|player players].
    + apply Forall2_nil_inv_l in Hrows as ->. unfold create_database. simpl.
      by rewrite Hcreated, app_nil_r, table_eta.
    + by apply create_database_run; [apply Hlen|].
Qed.

(** A call that raises leaves the file with its table and the rows it had. *)
Lemma create_database_Raise (players : list object) (file file' : database) (e : exn) :
  create_database players file = (file', Raise e) ->
  file' = <["players"%string := players_table file]> file.
Proof.
  destruct (created_table file) as [Hcreated _]. unfold create_database.
  destruct (insert_players players _); [done|]. intros [= <- _]. done.
Qed.

Lemma insert_params_no_country (o : object) :
  o !! "country"%string = None -> forall row, player_row o <> Ok row.
Proof.
  intros Hc row. unfold player_row, insert_params, getattr. rewrite Hc.
  destruct (o !! "name"%string); simpl; done.
Qed.

Lemma Player_no_country (name team position goals penalty_minutes : pyval) :
  Player name team position goals penalty_minutes !! "country"%string = None.
Proof.
  unfold Player, setattr.
  by repeat (rewrite lookup_insert_ne by done); rewrite lookup_empty.
Qed.

Lemma Goalie_no_country (name country saves goals_allowed : pyval) :
  Goalie name country saves goals_allowed !! "country"%string = None.
Proof.
  unfold Goalie, setattr. rewrite !lookup_insert_ne by done. apply Player_no_country.
Qed.

Lemma insert_params_constructed (o : object) :
  constructed o -> insert_params o = Raise (AttributeError "country").
Proof.
  intros Hbuilt. unfold insert_params, getattr.
  assert (o !! "country"%string = None) as ->.
  { destruct Hbuilt as [(n & t & p & g & pm & ->)|(n & c & sv & ga & ->)];
      [apply Player_no_country | apply Goalie_no_country]. }
  assert (exists n : pyval, o !! "name"%string = Some n) as [n ->]; [|done].
  destruct Hbuilt as [(n & t & p & g & pm & ->)|(n & c & sv & ga & ->)]; exists n;
    unfold Goalie, Player, setattr;
    by repeat (rewrite ?lookup_insert_eq; rewrite ?lookup_insert_ne by done).
Qed.

(** C9: what the code does with the objects it builds. Whatever the batch
    of [Player] and [Goalie] objects, as long as it is not empty, the call
    raises [AttributeError] on the [country] attribute the statement reads
    and that no constructor sets: the table is there, with the rows it
    had, and no row of the batch, hence no team, is stored. *)
Theorem create_database_stores_no_constructed
    (players : list object) (file : database) :
  players <> [] ->
  Forall constructed players ->
  create_database players file =
    (<["players"%string := players_table file]> file, Raise (AttributeError "country")).
Proof.
  intros Hne Hbuilt. destruct (created_table file) as [Hcreated _].
  destruct Hbuilt as [|o players Ho _]; [done|].
  unfold create_database. simpl.
  rewrite (insert_params_constructed o Ho). simpl. by rewrite Hcreated.
Qed.

Lemma create_database_stores_no_constructed_witness :
  create_database [Samples.player1; Samples.goalie1] ∅ =
    ({[ "players"%string := mkTable players_schema [] ]}, Raise (AttributeError "country")).
Proof.
  rewrite (create_database_stores_no_constructed [Samples.player1; Samples.goalie1] ∅).
  - reflexivity.
  - discriminate.
  - constructor; [|constructor; [|constructor]].
    + left. by exists (PyStr "Player1"), (PyStr "BOS"), (PyStr "Forward"), (PyInt 30), (PyInt 40).
    + right. by exists (PyStr "Goalie1"), (PyStr "CAN"), (PyInt 27), (PyInt 3).
Defined.

(** C9 as stated fails: the second column is [country], not [team], and a
    [Player], which has no such attribute, makes the call raise before any
    row is stored. *)
Lemma create_database_player_counterexample :
  create_database [Samples.player1] ∅ =
    ({[ "players"%string :=
          mkTable [("name", "TEXT"); ("country", "TEXT"); ("position", "TEXT");
                   ("goals", "INTEGER"); ("penalty_minutes", "INTEGER")]%string [] ]},
     Raise (AttributeError "country")).
Proof. reflexivity. Qed.

(** ** Goalies *)





(** * Further properties of the code *)

(** ** Well-formed frames stay well-formed *)

Lemma labels_map_rows (f : forall A, list A -> list A) (df : DataFrame) :
  labels (map_rows f df) = labels df.
Proof.
  unfold labels, map_rows. simpl. rewrite <- list_fmap_compose.
  by apply list_fmap_ext.
Qed.

Lemma wf_map_rows (f : forall A, list A -> list A) (df : DataFrame) (m : nat) :
  wf df ->
  (forall A (l : list A), length l = len df -> length (f A l) = m) ->
  wf (map_rows f df) /\ len (map_rows f df) = m.
Proof.
  intros [Hnd Hlen] Hf.
  assert (len (map_rows f df) = m) as Hm by (by apply Hf).
  split; [|done]. split.
  - by rewrite labels_map_rows.
  - rewrite Hm. unfold map_rows. simpl. apply Forall_fmap.
    eapply Forall_impl; [exact Hlen|]. intros [k c] Hc. simpl in *.
    destruct c; simpl in *; by apply Hf.
Qed.

Lemma length_mask_by {A} (mask : list bool) (l : list A) (start : nat) :
  length mask = length l ->
  length (mask_by mask l) = length (true_positions start mask).
Proof.
  revert l start. induction mask as [|b mask IH]; intros [|x l] start Hlen; try done.
  simpl in *. destruct b; simpl; [f_equal|]; apply IH; lia.
Qed.

Lemma wf_getitem_mask (df : DataFrame) (mask : list bool) :
  wf df -> length mask = len df ->
  wf (getitem_mask df mask) /\
  len (getitem_mask df mask) = length (true_positions 0 mask).
Proof.
  intros Hwf Hmask. apply wf_map_rows; [done|].
  intros A l Hl. apply length_mask_by. congruence.
Qed.

Lemma wf_take_rows (indexer : list nat) (df : DataFrame) :
  wf df -> Forall (fun i => (i < len df)%nat) indexer ->
  wf (take_rows indexer df) /\ len (take_rows indexer df) = length indexer.
Proof.
  intros Hwf Hv. apply wf_map_rows; [done|].
  intros A l Hl. apply length_take_by. by rewrite Hl.
Qed.

Lemma wf_head (n : Z) (df : DataFrame) :
  wf df -> wf (head n df) /\ len (head n df) = slice_stop n (len df).
Proof.
  intros Hwf. apply wf_map_rows; [done|].
  intros A l Hl. rewrite length_take, Hl.
  pose proof (slice_stop_le n (len df)). lia.
Qed.

Lemma labels_set_col (k : string) (c : column) (cols : list (string * column)) :
  (fst <$> set_col k c cols) =
    if bool_decide (k ∈ (fst <$> cols)) then fst <$> cols else (fst <$> cols) ++ [k].
Proof.
  induction cols as [|[k' c'] cols IH]; [done|].
  simpl set_col. destruct (String.eqb_spec k' k) as [->|Hne]; rewrite !fmap_cons; simpl fst.
  - rewrite bool_decide_eq_true_2; [done | by left].
  - rewrite IH. destruct (decide (k ∈ (fst <$> cols))) as [Hin|Hin].
    + rewrite !bool_decide_eq_true_2; [done | by right | done].
    + rewrite !bool_decide_eq_false_2; [done | | done].
      intros [?|?]%elem_of_cons; congruence.
Qed.

Lemma Forall_set_col (P : string * column -> Prop) (k : string) (c : column)
    (cols : list (string * column)) :
  P (k, c) -> Forall P cols -> Forall P (set_col k c cols).
Proof.
  intros Hk. induction 1 as [|[k' c'] cols Hc Hcols IH]; simpl; [by repeat constructor|].
  destruct (String.eqb k' k); by constructor.
Qed.

Lemma wf_setitem (df : DataFrame) (k : string) (c : column) :
  wf df -> col_len c = len df -> wf (setitem df k c) /\ len (setitem df k c) = len df.
Proof.
  intros [Hnd Hlen] Hc. split; [|done]. split.
  - unfold labels, setitem. simpl. rewrite labels_set_col.
    case_bool_decide as Hin; [done|].
    apply NoDup_app. split; [done|]. split; [|apply NoDup_singleton].
    intros x Hx ->%list_elem_of_singleton. done.
  - unfold setitem. simpl. by apply Forall_set_col.
Qed.

(** ** Filtering by position *)

Lemma map_rows_ext (f g : forall A, list A -> list A) (df : DataFrame) :
  wf df ->
  (forall A (l : list A), length l = len df -> f A l = g A l) ->
  map_rows f df = map_rows g df.
Proof.
  intros [_ Hlen] Hfg. unfold map_rows. f_equal; [by apply Hfg|].
  apply list_eq_Forall2, Forall2_fmap, Forall_Forall2_diag.
  eapply Forall_impl; [exact Hlen|]. intros [k c] Hc. simpl in *. f_equal.
  destruct c; simpl in *; f_equal; by apply Hfg.
Qed.

Lemma map_rows_id (f : forall A, list A -> list A) (df : DataFrame) :
  wf df ->
  (forall A (l : list A), length l = len df -> f A l = l) ->
  map_rows f df = df.
Proof.
  intros Hwf Hf. rewrite (map_rows_ext f (fun A l => l) df Hwf Hf).
  destruct df as [idx cols]. unfold map_rows. simpl. f_equal. clear.
  induction cols as [|[k c] cols IH]; [done|].
  rewrite fmap_cons, IH. by destruct c.
Qed.

Lemma mask_by_take_by {A} (mask : list bool) (pre l : list A) :
  length mask = length l ->
  mask_by mask l = take_by (true_positions (length pre) mask) (pre ++ l).
Proof.
  revert pre l. induction mask as [|b mask IH]; intros pre [|x l] Hlen; try done.
  simpl in Hlen. injection Hlen as Hlen.
  specialize (IH (pre ++ [x]) l Hlen).
  rewrite length_app, <- app_assoc in IH. simpl in IH.
  replace (length pre + 1)%nat with (S (length pre)) in IH by lia.
  simpl. destruct b; [|done].
  rewrite take_by_cons, list_lookup_middle by done. by f_equal.
Qed.

Lemma getitem_mask_take_rows (df : DataFrame) (mask : list bool) :
  wf df -> length mask = len df ->
  getitem_mask df mask = take_rows (true_positions 0 mask) df.
Proof.
  intros Hwf Hmask. apply map_rows_ext; [done|].
  intros A l Hl. apply (mask_by_take_by mask [] l). congruence.
Qed.

Lemma elem_of_true_positions (start : nat) (mask : list bool) (i : nat) :
  i ∈ true_positions start mask <->
  (start <= i)%nat /\ mask !! (i - start)%nat = Some true.
Proof.
  revert start. induction mask as [|b mask IH]; intros start; simpl.
  - rewrite elem_of_nil. split; [done | by intros [_ ?]].
  - assert (i ∈ true_positions (S start) mask <->
            (start < i)%nat /\ (b :: mask) !! (i - start)%nat = Some true) as Hrest.
    { rewrite IH. split; intros [Hle Hi]; (split; [lia|]).
      - replace (i - start)%nat with (S (i - S start)) by lia. done.
      - replace (i - start)%nat with (S (i - S start)) in Hi by lia. done. }
    destruct b.
    + rewrite elem_of_cons, Hrest. split.
      * intros [->|[Hlt Hi]]; [|split; [lia|done]].
        split; [lia|]. by rewrite Nat.sub_diag.
      * intros [Hle Hi]. destruct (decide (i = start)) as [|Hne]; [by left|].
        right. split; [lia|done].
    + rewrite Hrest. split; intros [Hle Hi]; (split; [|done]); [lia|].
      destruct (decide (i = start)) as [->|Hne]; [|lia].
      by rewrite Nat.sub_diag in Hi.
Qed.

Lemma true_positions_sorted (start : nat) (mask : list bool) :
  StronglySorted lt (true_positions start mask).
Proof.
  revert start. induction mask as [|b mask IH]; intros start; simpl; [constructor|].
  destruct b; [|done]. constructor; [done|].
  apply Forall_forall. intros i Hi%elem_of_true_positions. lia.
Qed.

Lemma series_eq_str_true (c : column) (position : string) (i : nat) :
  series_eq_str c position !! i = Some true <->
  match c with
  | StrCol v => v !! i = Some position
  | _ => False
  end.
Proof.
  destruct c as [v|v|v]; simpl; rewrite list_lookup_fmap.
  - destruct (v !! i); naive_solver.
  - destruct (v !! i); naive_solver.
  - destruct (v !! i) as [x|]; simpl; [|naive_solver].
    destruct (String.eqb_spec x position); naive_solver.
Qed.

Lemma length_series_eq_str (c : column) (position : string) :
  length (series_eq_str c position) = col_len c.
Proof. destruct c; simpl; by rewrite length_fmap. Qed.

Lemma filter_skaters_by_position_run (position : string) (skaters : DataFrame) (c : column) :
  wf skaters ->
  getitem skaters "Pos" = Ok c ->
  filter_skaters_by_position position skaters =
    (skaters, Ok (take_rows (true_positions 0 (series_eq_str c position)) skaters)).
Proof.
  intros Hwf Hc. unfold filter_skaters_by_position, bind, read. rewrite Hc.
  rewrite getitem_mask_take_rows; [done..|].
  rewrite length_series_eq_str. by eapply wf_getitem_len.
Qed.

Lemma filter_rows_valid (position : string) (skaters : DataFrame) (c : column) :
  wf skaters -> getitem skaters "Pos" = Ok c ->
  Forall (fun i => (i < len skaters)%nat) (true_positions 0 (series_eq_str c position)).
Proof.
  intros Hwf Hc. apply Forall_forall. intros i [_ Hi]%elem_of_true_positions.
  apply lookup_lt_Some in Hi. rewrite length_series_eq_str in Hi.
  rewrite (wf_getitem_len _ _ _ Hwf Hc) in Hi. lia.
Qed.

(** X1: on a frame with a [Pos] column, the filter returns exactly the rows
    whose position is the requested one, in their input order and with all
    their columns; a numeric [Pos] column matches nothing. *)
Theorem filter_keeps_matching_rows
    (position : string) (skaters : DataFrame) (c : column) :
  wf skaters ->
  getitem skaters "Pos" = Ok c ->
  exists rows : list nat,
    filter_skaters_by_position position skaters = (skaters, Ok (take_rows rows skaters)) /\
    StronglySorted lt rows /\
    (forall i : nat,
        i ∈ rows <->
        match c with
        | StrCol v => v !! i = Some position
        | _ => False
        end) /\
    labels (take_rows rows skaters) = labels skaters /\
    wf (take_rows rows skaters) /\
    len (take_rows rows skaters) = length rows.
Proof.
  intros Hwf Hc. exists (true_positions 0 (series_eq_str c position)).
  split; [by apply filter_skaters_by_position_run|].
  split; [apply true_positions_sorted|]. split; [|split].
  - intros i. rewrite elem_of_true_positions, Nat.sub_0_r, series_eq_str_true.
    split; [by intros [_ ?] | intros ?; split; [lia|done]].
  - apply labels_map_rows.
  - apply wf_take_rows; [done|]. by eapply filter_rows_valid.
Qed.

Lemma skaters_tied_wf : wf Samples.skaters_tied.
Proof. split; [by apply (bool_decide_unpack _) | repeat constructor]. Defined.

Lemma filter_keeps_matching_rows_witness :
  exists rows : list nat,
    filter_skaters_by_position "Forward" Samples.skaters_tied =
      (Samples.skaters_tied, Ok (take_rows rows Samples.skaters_tied)) /\
    (0%nat ∈ rows /\ 1%nat ∈ rows).
Proof.
  destruct (filter_keeps_matching_rows "Forward" Samples.skaters_tied
              (StrCol ["Forward"; "Forward"]%string) skaters_tied_wf eq_refl)
    as (rows & Hrun & _ & Hrows & _).
  exists rows. split; [exact Hrun|]. split; by apply Hrows.
Defined.

Lemma mask_by_all_true {A} (mask : list bool) (l : list A) :
  Forall (fun b => b = true) mask -> length mask = length l -> mask_by mask l = l.
Proof.
  intros Hall. revert l. induction Hall as [|b mask -> _ IH]; intros [|x l] Hlen; try done.
  simpl in *. f_equal. apply IH. lia.
Qed.

(** X2: filtering is idempotent: filtering the filtered frame again by the
    same position returns it unchanged. *)
Theorem filter_twice
    (position : string) (skaters filtered : DataFrame) :
  wf skaters ->
  outcome (filter_skaters_by_position position skaters) = Ok filtered ->
  filter_skaters_by_position position filtered = (filtered, Ok filtered).
Proof.
  intros Hwf Hrun.
  destruct (getitem skaters "Pos") as [c|e] eqn:Hc.
  2:{ unfold filter_skaters_by_position, bind, read in Hrun. by rewrite Hc in Hrun. }
  rewrite (filter_skaters_by_position_run position skaters c Hwf Hc) in Hrun.
  injection Hrun as <-.
  set (rows := true_positions 0 (series_eq_str c position)).
  pose proof (filter_rows_valid position skaters c Hwf Hc) as Hvalid. fold rows in Hvalid.
  destruct (wf_take_rows rows skaters Hwf Hvalid) as [Hwf' Hlen'].
  assert (getitem (take_rows rows skaters) "Pos" = Ok (col_map (fun A => take_by rows) c))
    as Hc' by (unfold take_rows; by rewrite getitem_map_rows, Hc).
  unfold filter_skaters_by_position, bind, read. rewrite Hc'. do 2 f_equal.
  apply map_rows_id; [done|]. intros A l Hl.
  apply mask_by_all_true.
  - apply Forall_forall. intros b Hb.
    apply list_elem_of_lookup in Hb as [p Hp].
    destruct c as [v|v|v]; simpl in Hp; rewrite list_lookup_fmap in Hp.
    + destruct (take_by rows v !! p) as [x|] eqn:Hx; [|done].
      apply list_elem_of_lookup_2, list_elem_of_omap in Hx as (i & Hi & _).
      apply elem_of_true_positions in Hi as [_ Hi].
      by apply series_eq_str_true in Hi.
    + destruct (take_by rows v !! p) as [x|] eqn:Hx; [|done].
      apply list_elem_of_lookup_2, list_elem_of_omap in Hx as (i & Hi & _).
      apply elem_of_true_positions in Hi as [_ Hi].
      by apply series_eq_str_true in Hi.
    + destruct (take_by rows v !! p) as [x|] eqn:Hx; [|done].
      apply list_elem_of_lookup_2, list_elem_of_omap in Hx as (i & Hi & Hx).
      apply elem_of_true_positions in Hi as [_ Hi].
      apply series_eq_str_true in Hi. rewrite Nat.sub_0_r in Hi.
      simpl in Hp. injection Hp as <-.
      assert (x = position) as -> by congruence. apply String.eqb_refl.
  - rewrite length_series_eq_str, Hl. by eapply wf_getitem_len.
Qed.

Lemma filter_twice_witness :
  exists filtered : DataFrame,
    outcome (filter_skaters_by_position "Forward" Samples.skaters_tied) = Ok filtered /\
    filter_skaters_by_position "Forward" filtered = (filtered, Ok filtered).
Proof.
  eexists. split; [reflexivity|].
  apply (filter_twice "Forward" Samples.skaters_tied); [exact skaters_tied_wf | reflexivity].
Defined.

(** ** The derivations: failures, repetition, wrap-around *)

Lemma lookup_col_None (k : string) (cols : list (string * column)) :
  lookup_col k cols = None <-> k ∉ (fst <$> cols).
Proof.
  induction cols as [|[k' c] cols IH]; simpl.
  - split; [intros _; apply not_elem_of_nil | done].
  - destruct (String.eqb_spec k' k) as [->|Hne].
    + split; [done|]. intros Hnot. exfalso. apply Hnot. by left.
    + rewrite IH, not_elem_of_cons. split; [by intros ? | by intros [_ ?]].
Qed.

Lemma getitem_missing (df : DataFrame) (k : string) :
  getitem df k = Raise KeyError <-> k ∉ labels df.
Proof.
  unfold getitem, labels. rewrite <- lookup_col_None.
  destruct (lookup_col k (columns df)); split; congruence.
Qed.

Lemma getitem_Raise (df : DataFrame) (k : string) (e : exn) :
  getitem df k = Raise e -> e = KeyError.
Proof. unfold getitem. destruct (lookup_col k (columns df)); congruence. Qed.

Lemma lookup_col_missing_name (df : DataFrame) (k : string) (c : column) :
  k <> "Player Name"%string ->
  "Player Name"%string ∉ labels df ->
  lookup_col "Player Name" (set_col k c (columns df)) = None.
Proof.
  intros Hk Hn. rewrite lookup_set_col_ne by done. by apply lookup_col_None.
Qed.

Lemma set_col_twice (k : string) (c : column) (cols : list (string * column)) :
  set_col k c (set_col k c cols) = set_col k c cols.
Proof.
  induction cols as [|[k' c'] cols IH]; simpl.
  - by rewrite String.eqb_refl.
  - destruct (String.eqb_spec k' k) as [->|Hne]; simpl.
    + by rewrite String.eqb_refl.
    + destruct (String.eqb_spec k' k); [done|]. by rewrite IH.
Qed.

Lemma setitem_twice (df : DataFrame) (k : string) (c : column) :
  setitem (setitem df k c) k c = setitem df k c.
Proof. unfold setitem. simpl. by rewrite set_col_twice. Qed.

(** X3: when [G] or [A] is missing or their sum is ill-typed, a derivation
    raises and leaves the caller's frame as it was; when only the name
    column is missing it raises too, but after having stored the derived
    column on the caller's frame. *)
Theorem derivation_failures (df : DataFrame) :
  ("G"%string ∉ labels df \/ "A"%string ∉ labels df ->
   calculate_points df = (df, Raise KeyError)) /\
  (forall (g a : column) (e : exn),
      getitem df "G" = Ok g -> getitem df "A" = Ok a -> series_add g a = Raise e ->
      calculate_points df = (df, Raise e)) /\
  (forall g a points : column,
      getitem df "G" = Ok g -> getitem df "A" = Ok a -> series_add g a = Ok points ->
      "Player Name"%string ∉ labels df ->
      calculate_points df = (setitem df "Points" points, Raise KeyError)) /\
  ("SV"%string ∉ labels df \/ "SA"%string ∉ labels df ->
   calculate_save_percentage df = (df, Raise KeyError)) /\
  (forall (sv sa : column) (e : exn),
      getitem df "SV" = Ok sv -> getitem df "SA" = Ok sa -> series_truediv sv sa = Raise e ->
      calculate_save_percentage df = (df, Raise e)) /\
  (forall sv sa pct : column,
      getitem df "SV" = Ok sv -> getitem df "SA" = Ok sa -> series_truediv sv sa = Ok pct ->
      "Player Name"%string ∉ labels df ->
      calculate_save_percentage df = (setitem df "SavePercentage" pct, Raise KeyError)).
Proof.
  split; [|split; [|split; [|split; [|split]]]].
  - intros Hmiss. unfold calculate_points, bind, read.
    destruct (getitem df "G") as [g|e] eqn:Hg.
    + destruct Hmiss as [Hm|Hm]; apply getitem_missing in Hm; [congruence|].
      by rewrite Hm.
    + by apply getitem_Raise in Hg as ->.
  - intros g a e Hg Ha Hadd. unfold calculate_points, bind, read.
    by rewrite Hg, Ha, Hadd.
  - intros g a points Hg Ha Hadd Hn. unfold calculate_points, bind, read, assign.
    rewrite Hg, Ha, Hadd. unfold getitem_list. simpl.
    by rewrite lookup_col_missing_name.
  - intros Hmiss. unfold calculate_save_percentage, bind, read.
    destruct (getitem df "SV") as [sv|e] eqn:Hsv.
    + destruct Hmiss as [Hm|Hm]; apply getitem_missing in Hm; [congruence|].
      by rewrite Hm.
    + by apply getitem_Raise in Hsv as ->.
  - intros sv sa e Hsv Hsa Hdiv. unfold calculate_save_percentage, bind, read.
    by rewrite Hsv, Hsa, Hdiv.
  - intros sv sa pct Hsv Hsa Hdiv Hn. unfold calculate_save_percentage, bind, read, assign.
    rewrite Hsv, Hsa, Hdiv. unfold getitem_list. simpl.
    by rewrite lookup_col_missing_name.
Qed.

Lemma derivation_failures_witness :
  calculate_points
    {| index := [0]; columns := [("G"%string, IntCol [5]); ("A"%string, IntCol [3])] |} =
    ({| index := [0];
        columns := [("G"%string, IntCol [5]); ("A"%string, IntCol [3]);
                    ("Points"%string, IntCol [8])] |},
     Raise KeyError).
Proof.
  destruct (derivation_failures
              {| index := [0]; columns := [("G"%string, IntCol [5]); ("A"%string, IntCol [3])] |})
    as (_ & _ & Hname & _).
  rewrite (Hname (IntCol [5]) (IntCol [3]) (IntCol [8])); [reflexivity..|].
  by apply (bool_decide_unpack _).
Defined.

(** X4: running a derivation a second time changes nothing: the caller's
    frame and the outcome are those of the first run, whether it succeeded
    or raised. *)
Theorem derivation_twice (df : DataFrame) :
  calculate_points (final (calculate_points df)) = calculate_points df /\
  calculate_save_percentage (final (calculate_save_percentage df)) =
    calculate_save_percentage df.
Proof.
  split.
  - unfold calculate_points, bind, read, assign, final.
    destruct (getitem df "G") as [g|e] eqn:Hg; simpl; [|by rewrite Hg].
    destruct (getitem df "A") as [a|e] eqn:Ha; simpl; [|by rewrite Hg, Ha].
    destruct (series_add g a) as [points|e] eqn:Hadd; simpl; [|by rewrite Hg, Ha, Hadd].
    destruct (getitem_list (setitem df "Points" points) ["Player Name"%string; "Points"%string])
      eqn:Hout; simpl;
      rewrite !getitem_setitem_ne, Hg, Ha, Hadd by done; simpl;
      by rewrite setitem_twice, Hout.
  - unfold calculate_save_percentage, bind, read, assign, final.
    destruct (getitem df "SV") as [sv|e] eqn:Hsv; simpl; [|by rewrite Hsv].
    destruct (getitem df "SA") as [sa|e] eqn:Hsa; simpl; [|by rewrite Hsv, Hsa].
    destruct (series_truediv sv sa) as [pct|e] eqn:Hdiv; simpl; [|by rewrite Hsv, Hsa, Hdiv].
    destruct (getitem_list (setitem df "SavePercentage" pct)
                ["Player Name"%string; "SavePercentage"%string]) eqn:Hout; simpl;
      rewrite !getitem_setitem_ne, Hsv, Hsa, Hdiv by done; simpl;
      by rewrite setitem_twice, Hout.
Qed.

Lemma wrap64_range (z : Z) : in_int64 (wrap64 z).
Proof.
  unfold in_int64, wrap64, int64_min, int64_max.
  pose proof (Z.mod_pos_bound (z - - 2 ^ 63) (2 ^ 64) ltac:(lia)). lia.
Qed.

Lemma wrap64_congruent (z : Z) : (wrap64 z - z) mod 2 ^ 64 = 0.
Proof.
  unfold wrap64, int64_min.
  pose proof (Z.div_mod (z - - 2 ^ 63) (2 ^ 64) ltac:(lia)) as Hdm.
  replace ((z - - 2 ^ 63) mod 2 ^ 64 + - 2 ^ 63 - z)
    with (- ((z - - 2 ^ 63) / 2 ^ 64) * 2 ^ 64) by lia.
  apply Z.mod_mul. lia.
Qed.

(** X5: on integer columns the points are always 64-bit integers, equal to
    goals plus assists modulo 2^64, whatever the size of the operands. *)
Theorem calculate_points_modular
    (skaters : DataFrame) (names : column) (g a : list Z) :
  getitem skaters "Player Name" = Ok names ->
  getitem skaters "G" = Ok (IntCol g) ->
  getitem skaters "A" = Ok (IntCol a) ->
  exists points : list Z,
    calculate_points skaters =
      (setitem skaters "Points" (IntCol points),
       Ok {| index := index skaters;
             columns := [("Player Name"%string, names);
                         ("Points"%string, IntCol points)] |}) /\
    forall (i : nat) (goals assists : Z),
      g !! i = Some goals -> a !! i = Some assists ->
      exists p : Z,
        points !! i = Some p /\ in_int64 p /\ (p - (goals + assists)) mod 2 ^ 64 = 0.
Proof.
  intros Hn Hg Ha. exists (zip_with int64_add g a). split.
  - by apply (calculate_points_run skaters names (IntCol g) (IntCol a)).
  - intros i goals assists Hi Hj. exists (int64_add goals assists).
    rewrite lookup_zip_with, Hi, Hj. simpl. split; [done|].
    split; [apply wrap64_range | apply wrap64_congruent].
Qed.

Lemma calculate_points_modular_witness :
  exists points : list Z,
    outcome (calculate_points Samples.skaters_huge) =
      Ok {| index := [0];
            columns := [("Player Name"%string, StrCol ["A"%string]);
                        ("Points"%string, IntCol points)] |} /\
    exists p : Z, points !! 0%nat = Some p /\ (p - (2 ^ 62 + 2 ^ 62)) mod 2 ^ 64 = 0.
Proof.
  destruct (calculate_points_modular Samples.skaters_huge (StrCol ["A"%string])
              [2 ^ 62] [2 ^ 62] eq_refl eq_refl eq_refl) as (points & Hrun & Hrows).
  exists points. rewrite Hrun. split; [reflexivity|].
  destruct (Hrows 0%nat (2 ^ 62) (2 ^ 62) eq_refl eq_refl) as (p & Hp & _ & Hmod).
  by exists p.
Defined.

(** ** Ranking: what is kept *)

Lemma StronglySorted_from_lookup {A} (R : relation A) (l : list A) :
  (forall (p q : nat) (a b : A),
      (p < q)%nat -> l !! p = Some a -> l !! q = Some b -> R a b) ->
  StronglySorted R l.
Proof.
  induction l as [|x l IH]; intros HR; [constructor|].
  constructor.
  - apply IH. intros p q a b Hpq Hp Hq. apply (HR (S p) (S q)); [lia|done..].
  - apply Forall_forall. intros b [q Hq]%list_elem_of_lookup.
    apply (HR 0%nat (S q)); [lia|done..].
Qed.

Lemma StronglySorted_seq (j n : nat) : StronglySorted lt (seq j n).
Proof.
  revert j. induction n as [|n IH]; intros j; simpl; [constructor|].
  constructor; [apply IH|]. apply Forall_forall. intros i Hi%elem_of_seq. lia.
Qed.

Lemma take_by_seq {A} (pre l : list A) :
  take_by (seq (length pre) (length l)) (pre ++ l) = l.
Proof.
  revert pre. induction l as [|x l IH]; intros pre; [done|].
  simpl length. simpl seq. rewrite take_by_cons, list_lookup_middle by done. f_equal.
  specialize (IH (pre ++ [x])). rewrite length_app, <- app_assoc in IH. simpl in IH.
  by replace (length pre + 1)%nat with (S (length pre)) in IH by lia.
Qed.

Lemma take_rows_seq (df : DataFrame) : wf df -> take_rows (seq 0 (len df)) df = df.
Proof.
  intros Hwf. apply map_rows_id; [done|]. intros A l <-. apply (take_by_seq [] l).
Qed.

Lemma take_by_Permutation {A} (indexer : list nat) (l : list A) :
  indexer ≡ₚ seq 0 (length l) -> take_by indexer l ≡ₚ l.
Proof.
  intros Hperm. pose proof (take_by_seq [] l) as Hid. simpl in Hid.
  unfold take_by in *. rewrite Hperm. by rewrite Hid.
Qed.

Lemma col_take_by_Permutation (indexer : list nat) (c : column) :
  indexer ≡ₚ seq 0 (col_len c) ->
  col_Permutation c (col_map (fun A => take_by indexer) c).
Proof.
  destruct c; simpl; intros Hperm; symmetry; by apply take_by_Permutation.
Qed.

(** What a ranking method computes on a well-formed frame that has the
    column [k]. *)
Lemma rank_run (df : DataFrame) (k : string) (c : column) (n : Z) :
  wf df -> getitem df k = Ok c ->
  sort_values_desc df k = Ok (take_rows (col_nargsort_desc c) df) /\
  col_nargsort_desc c ≡ₚ seq 0 (len df) /\
  wf (head n (take_rows (col_nargsort_desc c) df)) /\
  len (head n (take_rows (col_nargsort_desc c) df)) = slice_stop n (len df) /\
  (Z.of_nat (len df) <= n ->
   head n (take_rows (col_nargsort_desc c) df) = take_rows (col_nargsort_desc c) df).
Proof.
  intros Hwf Hk.
  pose proof (col_nargsort_desc_Permutation c) as Hperm.
  rewrite (wf_getitem_len df k c Hwf Hk) in Hperm.
  pose proof (Permutation_seq_bound _ _ Hperm) as Hvalid.
  destruct (wf_take_rows _ df Hwf Hvalid) as [Hwf' Hlen'].
  rewrite (Permutation_length Hperm), length_seq in Hlen'.
  destruct (wf_head n _ Hwf') as [Hwf'' Hlen'']. rewrite Hlen' in Hlen''.
  split; [by apply sort_values_desc_run|]. split; [done|]. split; [done|]. split; [done|].
  intros Hn. apply map_rows_id; [done|]. intros A l Hl. apply take_ge.
  rewrite Hl, Hlen'. unfold slice_stop. destruct (Z.ltb_spec n 0); lia.
Qed.

(** X6: ranking with [n] at least the number of rows loses and repeats no
    row: the result is the input with its rows rearranged, so every column
    keeps exactly the values it had. *)
Theorem ranking_keeps_all_rows (df : DataFrame) (n : Z) :
  wf df -> Z.of_nat (len df) <= n ->
  (forall c : column,
      getitem df "Points" = Ok c ->
      exists indexer : list nat,
        indexer ≡ₚ seq 0 (len df) /\
        top_players_by_points n df = (df, Ok (take_rows indexer df)) /\
        index (take_rows indexer df) ≡ₚ index df /\
        forall (k : string) (ck : column),
          getitem df k = Ok ck ->
          exists ck' : column,
            getitem (take_rows indexer df) k = Ok ck' /\ col_Permutation ck ck') /\
  (forall c : column,
      getitem df "SavePercentage" = Ok c ->
      exists indexer : list nat,
        indexer ≡ₚ seq 0 (len df) /\
        top_goalies_by_save_percentage n df = (df, Ok (take_rows indexer df)) /\
        index (take_rows indexer df) ≡ₚ index df /\
        forall (k : string) (ck : column),
          getitem df k = Ok ck ->
          exists ck' : column,
            getitem (take_rows indexer df) k = Ok ck' /\ col_Permutation ck ck').
Proof.
  intros Hwf Hn.
  assert (forall indexer : list nat,
             indexer ≡ₚ seq 0 (len df) ->
             index (take_rows indexer df) ≡ₚ index df /\
             forall (k : string) (ck : column),
               getitem df k = Ok ck ->
               exists ck' : column,
                 getitem (take_rows indexer df) k = Ok ck' /\ col_Permutation ck ck')
    as Hrows.
  { intros indexer Hperm. split; [by apply take_by_Permutation|].
    intros k ck Hk. exists (col_map (fun A => take_by indexer) ck). split.
    - unfold take_rows. by rewrite getitem_map_rows, Hk.
    - apply col_take_by_Permutation. by rewrite (wf_getitem_len df k ck Hwf Hk). }
  split; intros c Hc.
  - destruct (rank_run df "Points" c n Hwf Hc) as (Hsort & Hperm & _ & _ & Hall).
    exists (col_nargsort_desc c). split; [done|]. split; [|by apply Hrows].
    unfold top_players_by_points, bind, read, ret. by rewrite Hsort, Hall.
  - destruct (rank_run df "SavePercentage" c n Hwf Hc) as (Hsort & Hperm & _ & _ & Hall).
    exists (col_nargsort_desc c). split; [done|]. split; [|by apply Hrows].
    unfold top_goalies_by_save_percentage, bind, read, ret. by rewrite Hsort, Hall.
Qed.

Lemma ranking_keeps_all_rows_witness :
  exists indexer : list nat,
    indexer ≡ₚ seq 0 3 /\
    top_players_by_points 10 Samples.skaters_ranked =
      (Samples.skaters_ranked, Ok (take_rows indexer Samples.skaters_ranked)).
Proof.
  destruct (ranking_keeps_all_rows Samples.skaters_ranked 10 skaters_ranked_wf)
    as [Hpoints _]; [by vm_compute|].
  destruct (Hpoints (IntCol [8; 6; 2]) eq_refl) as (indexer & Hperm & Hrun & _).
  by exists indexer.
Defined.

(** ** Ranking: the order of the result *)

(** The descending order of the indexer, for an order that is strict on the
    keys that are not missing. *)
Section ArgsortOrderOn.
Context {K : Type}.
Variable ltb : K -> K -> bool.
Variable isna : K -> bool.
Hypothesis ltb_asym_on : forall a b : K,
  isna a = false -> isna b = false -> ltb a b = true -> ltb b a = false.
Hypothesis ltb_trans_on : forall a b c : K,
  isna a = false -> isna b = false -> isna c = false ->
  ltb b a = false -> ltb c b = false -> ltb c a = false.

Let present (x : nat * K) : Prop := isna x.2 = false.
Let below_or_equal (x y : nat * K) : Prop := ltb y.2 x.2 = false.

Lemma insert_key_sorted_on (x : nat * K) (l : list (nat * K)) :
  present x -> Forall present l ->
  StronglySorted below_or_equal l -> StronglySorted below_or_equal (insert_key ltb x l).
Proof.
  intros Hx Hl Hs. induction Hs as [|y l Hs IH Hy]; simpl; [repeat constructor|].
  apply Forall_cons in Hl as [Hyp Hl].
  destruct (ltb y.2 x.2) eqn:Hyx.
  - constructor; [by apply IH|].
    rewrite insert_key_Permutation. constructor; [|done].
    by apply ltb_asym_on.
  - constructor; [by constructor|]. constructor; [done|].
    rewrite Forall_forall in Hy, Hl. apply Forall_forall. intros z Hz.
    apply (ltb_trans_on x.2 y.2 z.2); try done; [by apply Hl | by apply Hy].
Qed.

Lemma argsort_sorted_on (items : list (nat * K)) :
  Forall present items -> StronglySorted below_or_equal (argsort ltb items).
Proof.
  induction 1 as [|x items Hx Hitems IH]; [constructor|].
  change (argsort ltb (x :: items)) with (insert_key ltb x (argsort ltb items)).
  apply insert_key_sorted_on; [exact Hx | by rewrite argsort_Permutation | exact IH].
Qed.

Lemma nargsort_desc_descending_on (items : list K) (p q i j : nat) (ki kj : K) :
  (p < q)%nat ->
  nargsort_desc ltb isna items !! p = Some i ->
  nargsort_desc ltb isna items !! q = Some j ->
  items !! i = Some ki -> items !! j = Some kj ->
  isna kj = false ->
  ltb ki kj = false.
Proof.
  intros Hpq Hp Hq Hi Hj Hnj. unfold nargsort_desc in Hp, Hq.
  set (idx := zip (seq 0 (length items)) items) in *.
  assert (forall r, r ∈ idx -> items !! r.1 = Some r.2) as Hin.
  { intros [r k] [n Hn]%list_elem_of_lookup.
    apply lookup_zip_with_Some in Hn as (r' & k' & [= <- <-] & Hs & Hk).
    apply lookup_seq in Hs as [-> _]. done. }
  set (non_nans := List.filter (fun r => negb (isna r.2)) idx) in *.
  assert (Forall present (reverse non_nans)) as Hpresent.
  { apply Forall_forall. intros r Hr. rewrite elem_of_reverse in Hr.
    apply list_elem_of_In, filter_In in Hr as [_ Hr]. unfold present.
    by destruct (isna r.2). }
  set (sorted := reverse (argsort ltb (reverse non_nans))) in *.
  assert (forall r, r ∈ sorted -> items !! r.1 = Some r.2) as Hsorted_in.
  { intros r Hr. unfold sorted in Hr.
    rewrite reverse_Permutation, argsort_Permutation, reverse_Permutation in Hr.
    apply list_elem_of_In, filter_In in Hr as [Hr _]. by apply Hin, list_elem_of_In. }
  assert (q < length sorted)%nat as Hq'.
  { destruct (decide (q < length sorted)%nat) as [|Hge]; [done|]. exfalso.
    rewrite lookup_app_r in Hq by (rewrite length_fmap; lia).
    apply list_lookup_fmap_Some in Hq as ([j' k] & -> & Hr).
    apply list_elem_of_lookup_2, list_elem_of_In, filter_In in Hr as [Hr Hna].
    apply list_elem_of_In, Hin in Hr. simpl in *. congruence. }
  rewrite lookup_app_l in Hp by (rewrite length_fmap; lia).
  rewrite lookup_app_l in Hq by (rewrite length_fmap; lia).
  apply list_lookup_fmap_Some in Hp as ([i' ki'] & -> & Hp).
  apply list_lookup_fmap_Some in Hq as ([j' kj'] & -> & Hq).
  pose proof (Hsorted_in _ (list_elem_of_lookup_2 _ _ _ Hp)) as Hi'.
  pose proof (Hsorted_in _ (list_elem_of_lookup_2 _ _ _ Hq)) as Hj'.
  simpl in *. rewrite Hi in Hi'. rewrite Hj in Hj'.
  injection Hi' as ->. injection Hj' as ->.
  pose proof (StronglySorted_reverse _ _ (argsort_sorted_on _ Hpresent)) as Hsorted.
  apply (StronglySorted_lookup _ _ p q _ _ Hsorted Hpq Hp Hq).
Qed.
End ArgsortOrderOn.

Lemma nargsort_desc_missing_after {K} (ltb : K -> K -> bool) (isna : K -> bool)
    (items : list K) (p q i j : nat) (ki kj : K) :
  (p < q)%nat ->
  nargsort_desc ltb isna items !! p = Some i ->
  nargsort_desc ltb isna items !! q = Some j ->
  items !! i = Some ki -> items !! j = Some kj ->
  isna ki = true -> isna kj = true.
Proof.
  intros Hpq Hp Hq Hi Hj Hna.
  destruct (nargsort_desc_missing_last ltb isna items)
    as (present & missing & Hsplit & Hpresent & Hmissing).
  rewrite Hsplit in Hp, Hq.
  destruct (decide (p < length present)%nat) as [Hlt|Hge].
  - rewrite lookup_app_l in Hp by done. rewrite Forall_forall in Hpresent.
    destruct (Hpresent i) as (k & Hk & Hkna); [by eapply list_elem_of_lookup_2|].
    congruence.
  - rewrite lookup_app_r in Hq by lia. rewrite Forall_forall in Hmissing.
    destruct (Hmissing j) as (k & Hk & Hkna); [by eapply list_elem_of_lookup_2|].
    congruence.
Qed.

(** The order of the floats agrees with the order of their keys. *)
Lemma float64_ltb_key (x y : float64) :
  isnan x = false -> isnan y = false ->
  float64_ltb x y = true <-> key_lt (float64_key x) (float64_key y).
Proof.
  unfold float64_ltb, SFltb, SFcompare, key_lt.
  destruct x as [sx|sx| |sx mx ex], y as [sy|sy| |sy my ey]; try done; intros _ _;
    try (destruct sx); try (destruct sy); simpl;
    try (split; [intros ?; try done; lia | intros ?; try done; lia]).
  - change (Pos.compare_cont Eq mx my) with (Pos.compare mx my).
    destruct (Z.compare_spec ex ey); [destruct (Pos.compare_spec mx my)|..]; simpl;
      (split; [intros ?; try done; lia | intros ?; try done; lia]).
  - change (Pos.compare_cont Eq mx my) with (Pos.compare mx my).
    destruct (Z.compare_spec ex ey); [destruct (Pos.compare_spec mx my)|..]; simpl;
      (split; [intros ?; try done; lia | intros ?; try done; lia]).
Qed.

Lemma float64_ltb_not_key (x y : float64) :
  isnan x = false -> isnan y = false ->
  float64_ltb x y = false <-> ~ key_lt (float64_key x) (float64_key y).
Proof.
  intros Hx Hy. rewrite <- (float64_ltb_key x y Hx Hy).
  destruct (float64_ltb x y); split; congruence.
Qed.

Lemma float64_ltb_asym (a b : float64) :
  isnan a = false -> isnan b = false ->
  float64_ltb a b = true -> float64_ltb b a = false.
Proof.
  intros Ha Hb. rewrite float64_ltb_key, float64_ltb_not_key by done.
  destruct (float64_key a) as [[a1 a2] a3], (float64_key b) as [[b1 b2] b3].
  unfold key_lt. simpl. lia.
Qed.

Lemma float64_ltb_trans (a b c : float64) :
  isnan a = false -> isnan b = false -> isnan c = false ->
  float64_ltb b a = false -> float64_ltb c b = false -> float64_ltb c a = false.
Proof.
  intros Ha Hb Hc. rewrite !float64_ltb_not_key by done.
  destruct (float64_key a) as [[a1 a2] a3], (float64_key b) as [[b1 b2] b3],
    (float64_key c) as [[c1 c2] c3].
  unfold key_lt. simpl. lia.
Qed.

Lemma ascii_compare_refl (x : ascii) : Ascii.compare x x = Eq.
Proof. unfold Ascii.compare. apply N.compare_refl. Qed.

Lemma string_compare_le_trans (a b c : string) :
  String.compare a b <> Gt -> String.compare b c <> Gt -> String.compare a c <> Gt.
Proof.
  revert b c. induction a as [|x a IH]; intros [|y b] [|z c]; simpl; try done.
  destruct (Ascii.compare x y) eqn:Hxy; [| |done];
    destruct (Ascii.compare y z) eqn:Hyz; try done.
  - apply Ascii.compare_eq_iff in Hxy as ->. apply Ascii.compare_eq_iff in Hyz as ->.
    rewrite ascii_compare_refl. apply IH.
  - apply Ascii.compare_eq_iff in Hxy as ->. by rewrite Hyz.
  - apply Ascii.compare_eq_iff in Hyz as <-. by rewrite Hxy.
  - unfold Ascii.compare in *.
    apply N.compare_lt_iff in Hxy. apply N.compare_lt_iff in Hyz.
    assert (N.compare (N_of_ascii x) (N_of_ascii z) = Lt) as ->
      by (apply N.compare_lt_iff; eapply N.lt_trans; eassumption).
    done.
Qed.

Lemma string_ltb_false (a b : string) :
  String.ltb b a = false <-> String.compare a b <> Gt.
Proof.
  unfold String.ltb. rewrite (String.compare_antisym a b).
  destruct (String.compare b a); simpl; split; congruence.
Qed.

Lemma string_ltb_asym (a b : string) : String.ltb a b = true -> String.ltb b a = false.
Proof.
  unfold String.ltb. rewrite (String.compare_antisym b a).
  by destruct (String.compare a b).
Qed.

Lemma string_ltb_trans (a b c : string) :
  String.ltb b a = false -> String.ltb c b = false -> String.ltb c a = false.
Proof. rewrite !string_ltb_false. apply string_compare_le_trans. Qed.

Lemma float64_ltb_nan_r (x y : float64) : isnan y = true -> float64_ltb x y = false.
Proof. destruct y; try done. intros _. by destruct x. Qed.

Lemma col_map_compose (f g : forall A, list A -> list A) (c : column) :
  col_map f (col_map g c) = col_map (fun A l => f A (g A l)) c.
Proof. by destruct c. Qed.

Lemma col_nargsort_desc_valid (c : column) :
  Forall (fun i => (i < col_len c)%nat) (col_nargsort_desc c).
Proof. apply Permutation_seq_bound, col_nargsort_desc_Permutation. Qed.

(** The ranked column is in descending order, missing values last. *)
Lemma ranked_desc_of_ranking (c : column) (k : nat) :
  ranked_desc (col_map (fun A l => take k (take_by (col_nargsort_desc c) l)) c).
Proof.
  pose proof (col_nargsort_desc_valid c) as Hvalid.
  destruct c as [v|v|v]; simpl in *.
  - intros p q x y Hpq Hp Hq.
    apply lookup_ranked in Hp as (_ & i & Hi & Hx); [|done].
    apply lookup_ranked in Hq as (_ & j & Hj & Hy); [|done].
    apply Z.ltb_ge.
    apply (nargsort_desc_descending_on Z.ltb (fun _ => false)) with (items := v)
      (p := p) (q := q) (i := i) (j := j); try done.
    + intros a b _ _ Hab. apply Z.ltb_lt in Hab. apply Z.ltb_ge. lia.
    + intros a b c _ _ _ Hba Hcb. apply Z.ltb_ge in Hba, Hcb. apply Z.ltb_ge. lia.
  - intros p q x y Hpq Hp Hq.
    apply lookup_ranked in Hp as (_ & i & Hi & Hx); [|done].
    apply lookup_ranked in Hq as (_ & j & Hj & Hy); [|done].
    split.
    + destruct (isnan y) eqn:Hny; [by apply float64_ltb_nan_r|].
      apply (nargsort_desc_descending_on float64_ltb isnan) with (items := v)
        (p := p) (q := q) (i := i) (j := j); try done.
      * apply float64_ltb_asym.
      * apply float64_ltb_trans.
    + intros Hnx.
      by apply (nargsort_desc_missing_after float64_ltb isnan v p q i j x y).
  - intros p q x y Hpq Hp Hq.
    apply lookup_ranked in Hp as (_ & i & Hi & Hx); [|done].
    apply lookup_ranked in Hq as (_ & j & Hj & Hy); [|done].
    apply (nargsort_desc_descending_on String.ltb (fun _ => false)) with (items := v)
      (p := p) (q := q) (i := i) (j := j); try done.
    + intros a b _ _. apply string_ltb_asym.
    + intros a b c _ _ _. apply string_ltb_trans.
Qed.

Lemma getitem_ranking (df : DataFrame) (k' : string) (c' : column) (indexer : list nat) (n : Z) :
  getitem df k' = Ok c' ->
  getitem (head n (take_rows indexer df)) k' =
    Ok (col_map (fun A l => take (slice_stop n (len (take_rows indexer df))) (take_by indexer l)) c').
Proof.
  intros Hk. unfold head, take_rows. rewrite !getitem_map_rows, Hk. simpl.
  by rewrite col_map_compose.
Qed.



(** ** Ranking what is already in order *)

(** On keys that are strictly descending, missing ones last, the indexer is
    the identity: no other arrangement is in key order. *)
Section ArgsortStrict.
Context {K : Type}.
Variable ltb : K -> K -> bool.
Variable isna : K -> bool.
Hypothesis ltb_asym_on : forall a b : K,
  isna a = false -> isna b = false -> ltb a b = true -> ltb b a = false.
Hypothesis ltb_trans_on : forall a b c : K,
  isna a = false -> isna b = false -> isna c = false ->
  ltb b a = false -> ltb c b = false -> ltb c a = false.

Lemma nargsort_desc_strict_input (items : list K) :
  (forall (i j : nat) (ki kj : K),
      (i < j)%nat -> items !! i = Some ki -> items !! j = Some kj ->
      (isna ki = true -> isna kj = true) /\ (isna kj = false -> ltb kj ki = true)) ->
  nargsort_desc ltb isna items = seq 0 (length items).
Proof.
  intros Hstrict.
  pose proof (nargsort_desc_Permutation ltb isna items) as Hperm.
  assert (NoDup (nargsort_desc ltb isna items)) as Hnd by (rewrite Hperm; apply NoDup_seq).
  apply (StronglySorted_unique_strong lt); [lia| |apply StronglySorted_seq|done].
  apply StronglySorted_from_lookup. intros p q a b Hpq Hp Hq.
  destruct (decide (a < b)%nat) as [|Hge]; [done|]. exfalso.
  assert (a <> b) as Hne.
  { intros ->. pose proof (NoDup_lookup _ _ _ _ Hnd Hp Hq). lia. }
  assert (a < length items)%nat as Ha.
  { apply list_elem_of_lookup_2 in Hp. rewrite Hperm in Hp. apply elem_of_seq in Hp. lia. }
  destruct (lookup_lt_is_Some_2 items a Ha) as [ka Hka].
  destruct (lookup_lt_is_Some_2 items b ltac:(lia)) as [kb Hkb].
  destruct (Hstrict b a kb ka ltac:(lia) Hkb Hka) as [Hlast Hbelow].
  destruct (isna ka) eqn:Hna.
  - pose proof (nargsort_desc_missing_order ltb isna items p q a b ka Hpq Hp Hq Hka Hna). lia.
  - assert (isna kb = false) as Hnb
      by (destruct (isna kb); [by specialize (Hlast eq_refl) | done]).
    pose proof (nargsort_desc_descending_on ltb isna ltb_asym_on ltb_trans_on
                  items p q a b ka kb Hpq Hp Hq Hka Hkb Hnb) as Hdesc.
    rewrite (Hbelow eq_refl) in Hdesc. done.
Qed.
End ArgsortStrict.

Lemma col_nargsort_desc_strict (c : column) :
  strictly_ranked_desc c -> col_nargsort_desc c = seq 0 (col_len c).
Proof.
  destruct c as [v|v|v]; simpl; intros Hr; apply nargsort_desc_strict_input.
  - intros a b _ _ Hab. apply Z.ltb_lt in Hab. apply Z.ltb_ge. lia.
  - intros a b c _ _ _ Hba Hcb. apply Z.ltb_ge in Hba, Hcb. apply Z.ltb_ge. lia.
  - intros i j x y Hij Hi Hj. split; [done|]. intros _. apply Z.ltb_lt. by eapply Hr.
  - apply float64_ltb_asym.
  - apply float64_ltb_trans.
  - intros i j x y Hij Hi Hj. by eapply Hr.
  - intros a b _ _. apply string_ltb_asym.
  - intros a b c _ _ _. apply string_ltb_trans.
  - intros i j x y Hij Hi Hj. split; [done|]. intros _. by eapply Hr.
Qed.

Lemma sort_values_desc_strict (df : DataFrame) (k : string) (c : column) :
  wf df -> getitem df k = Ok c -> strictly_ranked_desc c -> sort_values_desc df k = Ok df.
Proof.
  intros Hwf Hc Hr.
  rewrite (sort_values_desc_run df k c Hc), (col_nargsort_desc_strict c Hr).
  by rewrite (wf_getitem_len df k c Hwf Hc), take_rows_seq.
Qed.

(** X7: a frame whose metric is strictly descending, with no two equal
    values and the missing values last, is ranked as it stands: the
    ranking is just its first rows. *)
Theorem ranking_sorted_input (df : DataFrame) (n : Z) :
  wf df ->
  (forall c : column,
      getitem df "Points" = Ok c -> strictly_ranked_desc c ->
      top_players_by_points n df = (df, Ok (head n df))) /\
  (forall c : column,
      getitem df "SavePercentage" = Ok c -> strictly_ranked_desc c ->
      top_goalies_by_save_percentage n df = (df, Ok (head n df))).
Proof.
  intros Hwf. split; intros c Hc Hr.
  - unfold top_players_by_points, bind, read, ret.
    by rewrite (sort_values_desc_strict df _ c Hwf Hc Hr).
  - unfold top_goalies_by_save_percentage, bind, read, ret.
    by rewrite (sort_values_desc_strict df _ c Hwf Hc Hr).
Qed.

Lemma ranking_sorted_input_witness :
  top_players_by_points 2 Samples.skaters_ranked =
    (Samples.skaters_ranked, Ok (head 2 Samples.skaters_ranked)).
Proof.
  destruct (ranking_sorted_input Samples.skaters_ranked 2 skaters_ranked_wf) as [Hpoints _].
  apply (Hpoints (IntCol [8; 6; 2])); [reflexivity|].
  intros [|[|[|i]]] [|[|[|j]]] x y Hij Hi Hj; simpl in *;
    try lia; try discriminate; injection Hi as <-; injection Hj as <-; lia.
Defined.

(** ** Ranking a ranking *)

Lemma string_ltb_total (a b : string) :
  String.ltb a b = false -> a <> b -> String.ltb b a = true.
Proof.
  unfold String.ltb. rewrite (String.compare_antisym b a).
  destruct (String.compare a b) eqn:Hc; simpl; try done.
  intros _ Hne. by apply String.compare_eq_iff in Hc.
Qed.

(** With no two equal values the ranked column is strictly descending. *)
Lemma strictly_ranked_of_ranking (c : column) (k : nat) :
  distinct_keys c ->
  strictly_ranked_desc (col_map (fun A l => take k (take_by (col_nargsort_desc c) l)) c).
Proof.
  intros Hdistinct.
  pose proof (ranked_desc_of_ranking c k) as Hranked.
  pose proof (col_nargsort_desc_valid c) as Hvalid.
  assert (NoDup (col_nargsort_desc c)) as Hnd
    by (rewrite col_nargsort_desc_Permutation; apply NoDup_seq).
  assert (forall p q i j : nat,
             (p < q)%nat -> col_nargsort_desc c !! p = Some i ->
             col_nargsort_desc c !! q = Some j -> i <> j) as Hne.
  { intros p q i j Hpq Hp Hq ->. pose proof (NoDup_lookup _ _ _ _ Hnd Hp Hq). lia. }
  destruct c as [v|v|v]; simpl in *.
  - intros p q x y Hpq Hp Hq.
    pose proof (Hranked p q x y Hpq Hp Hq) as Hle.
    apply lookup_ranked in Hp as (_ & i & Hi & Hx); [|done].
    apply lookup_ranked in Hq as (_ & j & Hj & Hy); [|done].
    pose proof (Hdistinct i j x y (Hne p q i j Hpq Hi Hj) Hx Hy). lia.
  - intros p q x y Hpq Hp Hq.
    destruct (Hranked p q x y Hpq Hp Hq) as [Hlt Hlast].
    apply lookup_ranked in Hp as (_ & i & Hi & Hx); [|done].
    apply lookup_ranked in Hq as (_ & j & Hj & Hy); [|done].
    split; [done|]. intros Hny.
    assert (isnan x = false) as Hnx
      by (destruct (isnan x); [by specialize (Hlast eq_refl); congruence | done]).
    destruct (Hdistinct i j x y (Hne p q i j Hpq Hi Hj) Hx Hy Hnx Hny) as [Hxy|Hyx];
      [congruence | done].
  - intros p q x y Hpq Hp Hq.
    pose proof (Hranked p q x y Hpq Hp Hq) as Hlt.
    apply lookup_ranked in Hp as (_ & i & Hi & Hx); [|done].
    apply lookup_ranked in Hq as (_ & j & Hj & Hy); [|done].
    apply string_ltb_total; [done|].
    apply (Hdistinct i j x y (Hne p q i j Hpq Hi Hj) Hx Hy).
Qed.

Lemma head_small (n : Z) (df : DataFrame) :
  wf df -> Z.of_nat (len df) <= n -> head n df = df.
Proof.
  intros Hwf Hn. apply map_rows_id; [done|]. intros A l Hl. apply take_ge.
  rewrite Hl. unfold slice_stop. destruct (Z.ltb_spec n 0); lia.
Qed.

(** A ranking of distinct values is a fixed point of the ranking, for
    [n >= 0]. *)
Lemma rerank (df : DataFrame) (k : string) (c : column) (n : Z) :
  wf df -> 0 <= n -> getitem df k = Ok c -> distinct_keys c ->
  let ranked := head n (take_rows (col_nargsort_desc c) df) in
  sort_values_desc ranked k = Ok ranked /\ head n ranked = ranked.
Proof.
  intros Hwf Hn Hc Hdistinct ranked.
  destruct (rank_run df k c n Hwf Hc) as (_ & _ & Hwf' & Hlen' & _).
  fold ranked in Hwf', Hlen'. split.
  - apply (sort_values_desc_strict ranked k _ Hwf' (getitem_ranking df k c _ n Hc)).
    by apply strictly_ranked_of_ranking.
  - apply head_small; [done|]. rewrite Hlen'. unfold slice_stop.
    destruct (Z.ltb_spec n 0); lia.
Qed.

(** X9: for [n >= 0] and a metric with no two equal values, ranking the
    result of a ranking again, by the same metric and with the same [n],
    returns it unchanged. *)
Theorem ranking_twice (df ranked : DataFrame) (n : Z) :
  wf df -> 0 <= n ->
  (forall c : column,
      getitem df "Points" = Ok c -> distinct_keys c ->
      outcome (top_players_by_points n df) = Ok ranked ->
      top_players_by_points n ranked = (ranked, Ok ranked)) /\
  (forall c : column,
      getitem df "SavePercentage" = Ok c -> distinct_keys c ->
      outcome (top_goalies_by_save_percentage n df) = Ok ranked ->
      top_goalies_by_save_percentage n ranked = (ranked, Ok ranked)).
Proof.
  intros Hwf Hn. split; intros c Hc Hdistinct.
  - unfold top_players_by_points, bind, read, ret.
    rewrite (sort_values_desc_run df _ c Hc). simpl. intros [= <-].
    destruct (rerank df "Points" c n Hwf Hn Hc Hdistinct) as [-> ->]. done.
  - unfold top_goalies_by_save_percentage, bind, read, ret.
    rewrite (sort_values_desc_run df _ c Hc). simpl. intros [= <-].
    destruct (rerank df "SavePercentage" c n Hwf Hn Hc Hdistinct) as [-> ->]. done.
Qed.

Lemma ranking_twice_witness :
  exists ranked : DataFrame,
    outcome (top_players_by_points 2 Samples.skaters_ranked) = Ok ranked /\
    top_players_by_points 2 ranked = (ranked, Ok ranked).
Proof.
  eexists. split; [reflexivity|].
  destruct (ranking_twice Samples.skaters_ranked
              (head 2 (take_rows [0; 1; 2]%nat Samples.skaters_ranked)) 2
              skaters_ranked_wf) as [Hpoints _]; [lia|].
  apply (Hpoints (IntCol [8; 6; 2])); [reflexivity | | reflexivity].
  intros [|[|[|i]]] [|[|[|j]]] x y Hij Hi Hj; simpl in *;
    try lia; try discriminate; injection Hi as <-; injection Hj as <-; lia.
Defined.

(** ** Deriving, then ranking *)

Lemma wf_derived (df : DataFrame) (k : string) (names c : column) :
  k <> "Player Name"%string ->
  col_len names = len df -> col_len c = len df ->
  wf {| index := index df; columns := [("Player Name"%string, names); (k, c)] |}.
Proof.
  intros Hk Hn Hc. split.
  - unfold labels. simpl. apply NoDup_cons. split; [|apply NoDup_singleton].
    intros Hin%list_elem_of_singleton. congruence.
  - by repeat constructor.
Qed.

(** X10: deriving the points of a well-formed frame and ranking the frame
    returned never raises: the result lists [min n |input|] names (for
    [n >= 0]) with their points, rows of the input rearranged by one
    permutation, highest points first. *)
Theorem points_then_ranking
    (skaters : DataFrame) (names : column) (g a : list Z) (n : Z) :
  wf skaters ->
  getitem skaters "Player Name" = Ok names ->
  getitem skaters "G" = Ok (IntCol g) ->
  getitem skaters "A" = Ok (IntCol a) ->
  exists (derived ranked : DataFrame) (indexer : list nat) (points' : list Z),
    outcome (calculate_points skaters) = Ok derived /\
    top_players_by_points n derived = (derived, Ok ranked) /\
    indexer ≡ₚ seq 0 (len skaters) /\
    ranked = head n (take_rows indexer derived) /\
    labels ranked = ["Player Name"; "Points"]%string /\
    len ranked = slice_stop n (len skaters) /\
    getitem ranked "Points" = Ok (IntCol points') /\
    ranked_desc (IntCol points').
Proof.
  intros Hwf Hn Hg Ha.
  set (points := zip_with int64_add g a).
  pose proof (wf_getitem_len _ _ _ Hwf Hn) as Ln.
  pose proof (wf_getitem_len _ _ _ Hwf Hg) as Lg.
  pose proof (wf_getitem_len _ _ _ Hwf Ha) as La. simpl in Lg, La.
  assert (col_len (IntCol points) = len skaters) as Lp.
  { simpl. unfold points. rewrite length_zip_with. lia. }
  set (derived := {| index := index skaters;
                     columns := [("Player Name"%string, names);
                                 ("Points"%string, IntCol points)] |}).
  assert (wf derived) as Hwf' by (by apply wf_derived).
  assert (getitem derived "Points" = Ok (IntCol points)) as Hp by reflexivity.
  destruct (rank_run derived "Points" (IntCol points) n Hwf' Hp)
    as (Hsort & Hperm & _ & Hlen & _).
  exists derived, (head n (take_rows (col_nargsort_desc (IntCol points)) derived)),
    (col_nargsort_desc (IntCol points)),
    (take (slice_stop n (len (take_rows (col_nargsort_desc (IntCol points)) derived)))
       (take_by (col_nargsort_desc (IntCol points)) points)).
  split; [|split; [|split; [|split; [|split; [|split; [|split]]]]]].
  - by rewrite (calculate_points_run skaters names (IntCol g) (IntCol a) (IntCol points)).
  - unfold top_players_by_points, bind, read, ret. by rewrite Hsort.
  - done.
  - done.
  - unfold head, take_rows. by rewrite !labels_map_rows.
  - done.
  - by rewrite (getitem_ranking derived "Points" (IntCol points) _ n Hp).
  - apply (ranked_desc_of_ranking (IntCol points)).
Qed.

Lemma points_then_ranking_witness :
  exists (derived ranked : DataFrame),
    outcome (calculate_points Samples.skaters_tied) = Ok derived /\
    top_players_by_points 1 derived = (derived, Ok ranked) /\
    len ranked = 1%nat.
Proof.
  destruct (points_then_ranking Samples.skaters_tied (StrCol ["B"; "A"]%string)
              [5; 5] [3; 3] 1 skaters_tied_wf eq_refl eq_refl eq_refl)
    as (derived & ranked & indexer & points' & Hd & Hr & _ & _ & _ & Hlen & _).
  exists derived, ranked. split; [exact Hd|]. split; [exact Hr | exact Hlen].
Defined.

(** ** Filtering, then ranking *)

Lemma elem_of_take_by {A} (indexer : list nat) (l : list A) (x : A) :
  x ∈ take_by indexer l -> x ∈ l.
Proof.
  unfold take_by. intros (i & _ & Hx)%list_elem_of_omap.
  by eapply list_elem_of_lookup_2.
Qed.

(** X18: ranking the rows the filter returns: without a [Points] column on
    the frame the ranking raises [KeyError]; with one it never raises, and
    the result keeps all the columns, has [min n] of the matching rows (for
    [n >= 0]), holds only rows of the requested position and lists the
    points in descending order. *)
Theorem filter_then_ranking
    (position : string) (skaters : DataFrame) (pos : list string) (n : Z) :
  wf skaters ->
  getitem skaters "Pos" = Ok (StrCol pos) ->
  exists forwards : DataFrame,
    filter_skaters_by_position position skaters = (skaters, Ok forwards) /\
    ("Points"%string ∉ labels skaters ->
     top_players_by_points n forwards = (forwards, Raise KeyError)) /\
    ("Points"%string ∈ labels skaters ->
     exists (ranked : DataFrame) (pos' : list string) (points' : column),
       top_players_by_points n forwards = (forwards, Ok ranked) /\
       labels ranked = labels skaters /\
       len ranked = slice_stop n (len forwards) /\
       getitem ranked "Pos" = Ok (StrCol pos') /\
       Forall (fun x => x = position) pos' /\
       getitem ranked "Points" = Ok points' /\
       ranked_desc points').
Proof.
  intros Hwf Hpos.
  set (rows := true_positions 0 (series_eq_str (StrCol pos) position)).
  pose proof (filter_rows_valid position skaters _ Hwf Hpos) as Hvalid. fold rows in Hvalid.
  destruct (wf_take_rows rows skaters Hwf Hvalid) as [Hwf' Hlen'].
  exists (take_rows rows skaters).
  split; [by apply filter_skaters_by_position_run|]. split.
  - intros Hmissing.
    assert (getitem (take_rows rows skaters) "Points" = Raise KeyError) as Hg.
    { apply getitem_missing. unfold take_rows. by rewrite labels_map_rows. }
    unfold top_players_by_points, bind, read, sort_values_desc. by rewrite Hg.
  - intros Hin.
    destruct (getitem skaters "Points") as [points|e] eqn:Hpoints.
    2:{ apply getitem_Raise in Hpoints as Hk. subst e.
        by apply getitem_missing in Hpoints. }
    set (forwards := take_rows rows skaters) in *.
    assert (getitem forwards "Points" = Ok (col_map (fun A => take_by rows) points)) as Hp
      by (unfold forwards, take_rows; by rewrite getitem_map_rows, Hpoints).
    assert (getitem forwards "Pos" = Ok (StrCol (take_by rows pos))) as Hq
      by (unfold forwards, take_rows; by rewrite getitem_map_rows, Hpos).
    set (c := col_map (fun A => take_by rows) points) in *.
    destruct (rank_run forwards "Points" c n Hwf' Hp) as (Hsort & _ & _ & Hlen & _).
    eexists _, _, _.
    split; [unfold top_players_by_points, bind, read, ret; by rewrite Hsort|].
    split; [unfold forwards, head, take_rows; by rewrite !labels_map_rows|].
    split; [done|].
    split; [by rewrite (getitem_ranking forwards "Pos" _ _ n Hq)|].
    split.
    + apply Forall_forall. intros x Hx.
      assert (x ∈ take_by rows pos) as Hx'.
      { apply list_elem_of_lookup in Hx as [p' Hx].
        apply lookup_take_Some in Hx as [Hx _].
        by apply list_elem_of_lookup_2, elem_of_take_by in Hx. }
      apply list_elem_of_omap in Hx' as (i & Hi & Hx').
      apply elem_of_true_positions in Hi as [_ Hi].
      apply series_eq_str_true in Hi. rewrite Nat.sub_0_r in Hi. congruence.
    + split; [by rewrite (getitem_ranking forwards "Points" c _ n Hp)|].
      apply ranked_desc_of_ranking.
Qed.

Lemma skaters_positions_wf : wf Samples.skaters_positions.
Proof. split; [by apply (bool_decide_unpack _) | repeat constructor]. Defined.

Lemma filter_then_ranking_witness :
  exists (forwards ranked : DataFrame) (pos' : list string) (points' : column),
    filter_skaters_by_position "Forward" Samples.skaters_positions =
      (Samples.skaters_positions, Ok forwards) /\
    top_players_by_points 2 forwards = (forwards, Ok ranked) /\
    labels ranked = ["Player Name"; "Pos"; "Points"]%string /\
    len ranked = 2%nat /\
    getitem ranked "Pos" = Ok (StrCol pos') /\
    Forall (fun x => x = "Forward"%string) pos' /\
    getitem ranked "Points" = Ok points' /\
    ranked_desc points'.
Proof.
  destruct (filter_then_ranking "Forward" Samples.skaters_positions
              ["Forward"; "Defense"; "Forward"; "Forward"]%string 2
              skaters_positions_wf eq_refl)
    as (forwards & Hrun & _ & Hranked).
  destruct Hranked as (ranked & pos' & points' & Htop & Hlabels & Hlen & Hpos & Hall & Hpoints & Hdesc);
    [by apply (bool_decide_unpack _)|].
  exists forwards, ranked, pos', points'.
  split; [exact Hrun|]. split; [exact Htop|]. split; [exact Hlabels|].
  split; [|split; [exact Hpos|split; [exact Hall|split; [exact Hpoints | exact Hdesc]]]].
  rewrite Hlen. injection Hrun as <-. reflexivity.
Defined.

(** ** Team codes: writing one and reading it back *)

Lemma occurs_app (c : ascii) (s t : string) :
  occurs c (s +:+ t) <-> occurs c s \/ occurs c t.
Proof.
  induction s as [|c' s IH]; simpl.
  - split; [by right | by intros [[]|?]].
  - rewrite IH. split; [intros [?|[?|?]] | intros [[?|?]|?]]; auto.
Qed.

Lemma match_at_other (c : ascii) (s : string) :
  c <> "("%char -> Re.match_at (String c s) = None.
Proof.
  intros Hc. unfold Re.match_at.
  destruct c as [[] [] [] [] [] [] [] []]; try done.
Qed.

Lemma search_skip (c : ascii) (s : string) :
  c <> "("%char -> Re.search (String c s) = Re.search s.
Proof.
  intros Hc.
  change (Re.search (String c s))
    with (match Re.match_at (String c s) with
          | Some g => Some g
          | None => Re.search s
          end).
  by rewrite match_at_other.
Qed.

Lemma search_here (s code : string) :
  Re.match_at s = Some code -> Re.search s = Some code.
Proof. intros Hm. destruct s; simpl in *; by rewrite Hm. Qed.

(** X11: a code written in parentheses after a text that has no opening
    parenthesis is read back exactly, whatever follows the closing one. *)
Theorem extract_team_code_round_trip (name code rest : string) :
  ~ occurs "("%char name ->
  code <> EmptyString ->
  all_upper code = true ->
  extract_team_code (name +:+ String "("%char (code +:+ String ")"%char rest)) = Some code.
Proof.
  intros Hname Hne Hup. unfold extract_team_code.
  induction name as [|c name IH].
  - apply search_here, match_at_tagged. split; [done|]. split; [done|]. by exists rest.
  - simpl in Hname.
    change (String c name +:+ String "("%char (code +:+ String ")"%char rest))
      with (String c (name +:+ String "("%char (code +:+ String ")"%char rest))).
    rewrite search_skip by (intros ->; apply Hname; by left).
    apply IH. intros Hin. apply Hname. by right.
Qed.

Lemma extract_team_code_round_trip_witness :
  extract_team_code "Alex Ovechkin (WSH), LW" = Some "WSH"%string.
Proof.
  apply (extract_team_code_round_trip "Alex Ovechkin " "WSH" ", LW").
  - simpl. intros H. repeat (destruct H as [H|H]; [discriminate H|]). exact H.
  - discriminate.
  - reflexivity.
Defined.

Lemma all_upper_occurs (code : string) :
  code <> EmptyString -> all_upper code = true ->
  exists c : ascii, occurs c code /\ Re.is_upper c = true.
Proof.
  destruct code as [|c code]; [done|]. simpl. intros _ [Hc _]%andb_true_iff.
  exists c. split; [by left | done].
Qed.

(** X12: a text with no opening parenthesis, or no closing one, or no
    capital letter, has no team code. *)
Theorem extract_team_code_none (player_info : string) :
  ~ occurs "("%char player_info \/
  ~ occurs ")"%char player_info \/
  (forall c : ascii, occurs c player_info -> Re.is_upper c = false) ->
  extract_team_code player_info = None.
Proof.
  intros Hlack. unfold extract_team_code. apply search_None.
  intros n code (pre & tail & -> & _ & Hne & Hup & post & ->).
  destruct Hlack as [Hno|[Hno|Hno]].
  - apply Hno, occurs_app. right. by left.
  - apply Hno, occurs_app. right. simpl. right.
    apply occurs_app. right. by left.
  - destruct (all_upper_occurs code Hne Hup) as (c & Hc & Hupc).
    rewrite Hno in Hupc; [done|].
    apply occurs_app. right. simpl. right. apply occurs_app. by left.
Qed.

Lemma extract_team_code_none_witness : extract_team_code "john smith (bos)" = None.
Proof.
  apply extract_team_code_none. right. right.
  intros c Hc. simpl in Hc.
  repeat (destruct Hc as [<-|Hc]; [reflexivity|]). destruct Hc.
Defined.

(** ** The snapshot table: success, failure, and what is never touched *)

Lemma Forall2_exists {A B} (P : A -> B -> Prop) (l : list A) :
  Forall (fun x => exists y, P x y) l <-> exists k, Forall2 P l k.
Proof.
  split.
  - induction 1 as [|x l [y Hy] _ [k Hk]]; [by exists []|]. exists (y :: k). by constructor.
  - intros [k Hk]. induction Hk; constructor; eauto.
Qed.

(** X13: on a five-column table the call ends normally exactly when every
    player has the five attributes the statement reads, with integers in
    the 64-bit range; otherwise it raises and none of the batch is stored,
    not even the rows of the players before the offending one. *)
Theorem create_database_all_or_nothing (players : list object) (file : database) :
  length (schema (players_table file)) = 5%nat ->
  ((create_database players file).2 = Ok tt <->
   Forall (fun player => exists row, player_row player = Ok row) players) /\
  ((create_database players file).2 <> Ok tt ->
   (create_database players file).1 = <["players"%string := players_table file]> file).
Proof.
  intros Hlen. split.
  - rewrite Forall2_exists. split.
    + intros Hok. destruct (create_database players file) as [file' r] eqn:Hrun.
      simpl in Hok. subst r.
      apply create_database_Ok in Hrun as (new_rows & Hrows & _). by exists new_rows.
    + intros [new_rows Hrows]. by rewrite (create_database_run players new_rows file).
  - destruct (create_database players file) as [file' [[]|e]] eqn:Hrun; simpl; [done|].
    intros _. by eapply create_database_Raise.
Qed.

Lemma create_database_all_or_nothing_witness :
  (create_database [Samples.entity1; Samples.player1] ∅).1 =
    {[ "players"%string := mkTable players_schema [] ]}.
Proof.
  destruct (create_database_all_or_nothing [Samples.entity1; Samples.player1] ∅)
    as [_ Hfail]; [reflexivity|].
  rewrite Hfail; [reflexivity|]. discriminate.
Defined.

(** X14: whatever the players and however the call ends, every other table
    of the file is left as it was, the [players] table keeps its declared
    columns, and the rows it held stay first, in their order. *)
Theorem create_database_frame (players : list object) (file : database) :
  (forall name : string,
      name <> "players"%string ->
      (create_database players file).1 !! name = file !! name) /\
  exists t' : table,
    (create_database players file).1 !! "players"%string = Some t' /\
    schema t' = schema (players_table file) /\
    rows (players_table file) `prefix_of` rows t'.
Proof.
  destruct (create_database players file) as [file' [[]|e]] eqn:Hrun; simpl.
  - apply create_database_Ok in Hrun as (new_rows & _ & _ & ->). split.
    + intros name Hname. by rewrite lookup_insert_ne.
    + eexists. rewrite lookup_insert_eq. split; [done|]. split; [done|].
      simpl. by apply prefix_app_r.
  - apply create_database_Raise in Hrun as ->. split.
    + intros name Hname. by rewrite lookup_insert_ne.
    + eexists. rewrite lookup_insert_eq. done.
Qed.

(** X15: a batch that holds a [Player] or a [Goalie] as its constructor
    built it is never stored: the call raises and no row of the batch
    reaches the table. *)
Theorem create_database_rejects_constructed
    (players : list object) (file : database) (o : object) :
  o ∈ players ->
  (exists name team position goals penalty_minutes : pyval,
      o = Player name team position goals penalty_minutes) \/
  (exists name country saves goals_allowed : pyval,
      o = Goalie name country saves goals_allowed) ->
  exists e : exn,
    create_database players file =
      (<["players"%string := players_table file]> file, Raise e).
Proof.
  intros Hin Hbuilt.
  assert (o !! "country"%string = None) as Hc.
  { destruct Hbuilt as [(n & t & p & g & pm & ->)|(n & c & s & ga & ->)];
      [apply Player_no_country | apply Goalie_no_country]. }
  destruct (create_database players file) as [file' [[]|e]] eqn:Hrun.
  - apply create_database_Ok in Hrun as (new_rows & Hrows & _). exfalso.
    apply list_elem_of_lookup in Hin as [i Hi].
    destruct (Forall2_lookup_l _ _ _ _ _ Hrows Hi) as (row & _ & Hrow).
    by apply insert_params_no_country in Hrow.
  - exists e. by rewrite (create_database_Raise _ _ _ _ Hrun).
Qed.

Lemma create_database_rejects_constructed_witness :
  exists e : exn,
    create_database [Samples.entity1; Samples.goalie1] ∅ =
      ({[ "players"%string := mkTable players_schema [] ]}, Raise e).
Proof.
  destruct (create_database_rejects_constructed
              [Samples.entity1; Samples.goalie1] ∅ Samples.goalie1) as [e He].
  - apply elem_of_cons. right. apply elem_of_cons. by left.
  - right. by exists (PyStr "Goalie1"), (PyStr "CAN"), (PyInt 27), (PyInt 3).
  - exists e. rewrite He. reflexivity.
Defined.

(** X16: when the file already has a [players] table that does not have
    five columns, every save of a non-empty batch raises and the file is
    left exactly as it was. *)
Theorem create_database_other_shape
    (players : list object) (file : database) (t : table) :
  file !! "players"%string = Some t ->
  length (schema t) <> 5%nat ->
  players <> [] ->
  exists e : exn, create_database players file = (file, Raise e).
Proof.
  intros Ht Hlen Hne.
  assert (players_table file = t) as HT by (unfold players_table; by rewrite Ht).
  destruct (create_database players file) as [file' [[]|e]] eqn:Hrun.
  - apply create_database_Ok in Hrun as (new_rows & _ & Harity & _).
    rewrite HT in Harity. by apply Harity in Hne.
  - exists e. rewrite (create_database_Raise _ _ _ _ Hrun), HT. by rewrite insert_id.
Qed.

Lemma create_database_other_shape_witness :
  exists e : exn,
    create_database [Samples.entity1]
      {[ "players"%string := mkTable [("name", "TEXT")]%string [] ]} =
      ({[ "players"%string := mkTable [("name", "TEXT")]%string [] ]}, Raise e).
Proof.
  apply (create_database_other_shape [Samples.entity1] _
           (mkTable [("name", "TEXT")]%string [])); [reflexivity | simpl; lia | discriminate].
Defined.

Lemma players_table_insert (t : table) (file : database) :
  players_table (<["players"%string := t]> file) = t.
Proof. unfold players_table. by rewrite lookup_insert_eq. Qed.

(** X17: saving a batch in one call ends normally exactly when saving its
    first part and then its second part in two calls does, and leaves the
    same file. *)
Theorem create_database_split (players1 players2 : list object) (file file' : database) :
  create_database (players1 ++ players2) file = (file', Ok tt) <->
  exists file1 : database,
    create_database players1 file = (file1, Ok tt) /\
    create_database players2 file1 = (file', Ok tt).
Proof.
  split.
  - intros (new_rows & Hrows & Hlen & ->)%create_database_Ok.
    apply Forall2_app_inv_l in Hrows as (rows1 & rows2 & Hrows1 & Hrows2 & ->).
    eexists. split.
    + apply create_database_Ok. exists rows1. split; [done|]. split; [|done].
      intros Hne. apply Hlen. by destruct players1.
    + apply create_database_Ok. exists rows2. split; [done|].
      rewrite players_table_insert. simpl. split.
      * intros Hne. apply Hlen. destruct players1; [done|discriminate].
      * by rewrite insert_insert_eq, app_assoc.
  - intros (file1 & (rows1 & Hrows1 & Hlen1 & ->)%create_database_Ok
            & (rows2 & Hrows2 & Hlen2 & ->)%create_database_Ok).
    apply create_database_Ok. exists (rows1 ++ rows2).
    rewrite players_table_insert in Hlen2 |- *. simpl in *.
    split; [by apply Forall2_app|]. split.
    + intros Hne. destruct players1 as [|p players1]; [apply Hlen2 | by apply Hlen1].
      by destruct players2.
    + by rewrite insert_insert_eq, app_assoc.
Qed.
